(** * Directus client layer: uniform result envelope, query serialisation,
    error classification and the products helper.

  Shallow embedding of [backend/lib/directus/client.js] and
  [backend/lib/directus/products.js] (the TypeScript variants under
  [frontend/swpshop/lib/directus] have the same bodies) and of the helpers
  of the boundary server, followed by their properties.

  Conventions of the embedding.
  - A JavaScript value is a [JsValue] tree: [undefined], [null], booleans,
    numbers, strings, arrays without holes and plain objects.
  - A number is an IEEE 754 binary64 datum, a [spec_float] of the Standard
    Library read with precision 53 and exponent bound 1024; [num z] is the
    number nearest to the integer [z], and [numberToString] is
    [Number::toString], shortest digits and exponent notation included.
  - A string is a [string] whose characters are UTF-16 code units below 256;
    percent-encoding writes the UTF-8 bytes of each of them.
  - An object is the list of its own enumerable properties, names
    distinct, in the order they were created; [objectEntries] puts them in
    the order [Object.entries] yields them, array indices first.
  - An asynchronous call either completes normally or abruptly (a thrown
    value or a rejected promise): [Completion].
  - The injected transport is a function of the calls made so far and the
    current call; every call is appended to a log that is threaded through
    the operations ([M]). *)

From Stdlib Require Import String Ascii List ZArith Lia Bool.
From Stdlib Require Import Numbers.DecimalString.
From Stdlib Require Import Floats.SpecFloat.
From Stdlib Require Import Sorting.Permutation Sorting.Sorted.
Import ListNotations.

Local Open Scope list_scope.
Local Open Scope string_scope.

(* ------------------------------------------------------------------ *)
(** ** Numbers and [Number::toString] *)

Module Numbers.

(** A Number value: an IEEE 754 binary64 datum. *)
Definition Number : Set := spec_float.

(** The Number nearest to an integer (ties to even). *)
Definition num (z : Z) : Number := binary_normalize 53 1024 z 0 false.

(** The decimal numeral of a non-negative integer. *)
Definition decimal (z : Z) : string := NilZero.string_of_int (Z.to_int z).

Fixpoint zeros (n : nat) : string :=
  match n with
  | O => ""
  | S n' => String "0" (zeros n')
  end.

(** The rounding interval of the positive number [m * 2^e], over the
    denominator [denominator]: every real strictly between
    [low / denominator] and [high / denominator] rounds to that number,
    and so do the two ends when [closed] (the significand is even). *)
Record Interval : Type := mkInterval {
  low : Z;
  middle : Z;
  high : Z;
  denominator : Z;
  closed : bool
}.

Definition roundingInterval (m : positive) (e : Z) : Interval :=
  (let m := Zpos m in
   let below := if (m =? 2 ^ 52) && (-1074 <? e) then 1 else 2 in
   let unit := if 2 <=? e then 2 ^ (e - 2) else 1 in
   {| low := (4 * m - below) * unit;
      middle := 4 * m * unit;
      high := (4 * m + 2) * unit;
      denominator := if 2 <=? e then 1 else 2 ^ (2 - e);
      closed := Z.even m |})%Z.

(** The integer [s] for which [s * 10^p] lies in the interval and is
    nearest to its middle (the even one of two), if there is one. *)
Definition digitsAt (i : Interval) (p : Z) : option Z :=
  (let scale := 10 ^ Z.abs p in
   let step := if 0 <=? p then denominator i * scale else denominator i in
   let widen := fun z => if 0 <=? p then z else z * scale in
   let inside := fun s =>
     (0 <? s)
     && (if closed i
         then (widen (low i) <=? s * step) && (s * step <=? widen (high i))
         else (widen (low i) <? s * step) && (s * step <? widen (high i))) in
   let down := widen (middle i) / step in
   let up := if widen (middle i) mod step =? 0 then down else down + 1 in
   match inside down, inside up with
   | true, true =>
       match (widen (middle i) - down * step ?= up * step - widen (middle i))
       with
       | Lt => Some down
       | Gt => Some up
       | Eq => Some (if Z.even down then down else up)
       end
   | true, false => Some down
   | false, true => Some up
   | false, false => None
   end)%Z.

(** The first position, from [p] downwards, that has digits. *)
Fixpoint shortestFrom (fuel : nat) (i : Interval) (p : Z) : Z * Z :=
  match fuel with
  | O => (middle i / denominator i, 0)%Z
  | S fuel' =>
      match digitsAt i p with
      | Some s => (s, p)
      | None => shortestFrom fuel' i (p - 1)%Z
      end
  end.

(** [s] and [p] such that [s * 10^p] rounds to [m * 2^e], with as few
    digits in [s] as possible.  The search starts at a position [p] with
    [10^p] above the interval. *)
Definition shortestDecimal (m : positive) (e : Z) : Z * Z :=
  let i := roundingInterval m e in
  let bits := (Z.log2 (high i) + 1 - Z.log2 (denominator i))%Z in
  let start := (if 0 <=? bits then bits * 30103 / 100000 + 1
                else bits * 30102 / 100000 + 1)%Z in
  shortestFrom 400 i start.

Definition substringFrom (n : nat) (s : string) : string :=
  substring n (String.length s - n) s.

(** The text of the positive number [s * 10^p], where [s] has [k] digits
    and [n = p + k]: plain digits up to 10^21, a decimal point down to
    10^-6, exponent notation beyond. *)
Definition formatDecimal (s p : Z) : string :=
  let digits := decimal s in
  let k := Z.of_nat (String.length digits) in
  let n := (p + k)%Z in
  if ((k <=? n) && (n <=? 21))%Z then digits ++ zeros (Z.to_nat (n - k))
  else if ((0 <? n) && (n <=? 21))%Z
  then substring 0 (Z.to_nat n) digits ++ "."
       ++ substringFrom (Z.to_nat n) digits
  else if ((-6 <? n) && (n <=? 0))%Z
  then "0." ++ zeros (Z.to_nat (- n)) ++ digits
  else
    let exponent :=
      (if (0 <=? n - 1)%Z then "+" else "-") ++ decimal (Z.abs (n - 1)) in
    if (k =? 1)%Z then digits ++ "e" ++ exponent
    else substring 0 1 digits ++ "." ++ substringFrom 1 digits
         ++ "e" ++ exponent.

(** [Number::toString(x)] in radix 10, which is [String(x)]. *)
Definition numberToString (x : Number) : string :=
  match x with
  | S754_nan => "NaN"
  | S754_zero _ => "0"
  | S754_infinity negative => if negative then "-Infinity" else "Infinity"
  | S754_finite negative m e =>
      let (s, p) := shortestDecimal m e in
      (if negative then "-" else "") ++ formatDecimal s p
  end.

(** [ToBoolean] of a number: [0], [-0] and [NaN] are falsy. *)
Definition numberToBoolean (x : Number) : bool :=
  match x with
  | S754_zero _ | S754_nan => false
  | _ => true
  end.

(** [Number.isFinite(x)]. *)
Definition numberIsFinite (x : Number) : bool :=
  match x with
  | S754_zero _ | S754_finite _ _ _ => true
  | _ => false
  end.

End Numbers.
Export Numbers.

Arguments num : simpl never.
Arguments numberToString : simpl never.

(* ------------------------------------------------------------------ *)
(** ** JavaScript values and the built-ins the client relies on *)

Module Js.

Unset Elimination Schemes.
Inductive JsValue : Type :=
| JUndefined
| JNull
| JBool (b : bool)
| JNum (x : Number)
| JStr (s : string)
| JArr (items : list JsValue)
| JObj (props : list (string * JsValue)).
Set Elimination Schemes.

(** Induction over values that reaches inside arrays and objects. *)
Section JsValue_ind.
Variable P : JsValue -> Prop.
Hypothesis Hundef : P JUndefined.
Hypothesis Hnull : P JNull.
Hypothesis Hbool : forall b, P (JBool b).
Hypothesis Hnum : forall x, P (JNum x).
Hypothesis Hstr : forall s, P (JStr s).
Hypothesis Harr : forall items, Forall P items -> P (JArr items).
Hypothesis Hobj :
  forall props, Forall (fun kv => P (snd kv)) props -> P (JObj props).

Fixpoint JsValue_ind (v : JsValue) : P v :=
  match v with
  | JUndefined => Hundef
  | JNull => Hnull
  | JBool b => Hbool b
  | JNum x => Hnum x
  | JStr s => Hstr s
  | JArr items =>
      Harr items
        ((fix all (l : list JsValue) : Forall P l :=
            match l with
            | [] => Forall_nil P
            | x :: l' => Forall_cons x (JsValue_ind x) (all l')
            end) items)
  | JObj props =>
      Hobj props
        ((fix all (l : list (string * JsValue))
            : Forall (fun kv => P (snd kv)) l :=
            match l with
            | [] => Forall_nil _
            | kv :: l' =>
                Forall_cons (P := fun kv => P (snd kv)) kv
                  (JsValue_ind (snd kv)) (all l')
            end) props)
  end.
End JsValue_ind.

(** [ToBoolean]. *)
Definition toBoolean (v : JsValue) : bool :=
  match v with
  | JUndefined | JNull => false
  | JBool b => b
  | JNum x => numberToBoolean x
  | JStr s => negb (String.eqb s "")
  | JArr _ | JObj _ => true
  end.

(** [a || b] and [a ?? b]. *)
Definition js_or (a b : JsValue) : JsValue := if toBoolean a then a else b.

Definition isNullish (v : JsValue) : bool :=
  match v with JUndefined | JNull => true | _ => false end.

Definition nullish_coalesce (a b : JsValue) : JsValue :=
  if isNullish a then b else a.

Definition isArray (v : JsValue) : bool :=
  match v with JArr _ => true | _ => false end.

Definition isNumber (v : JsValue) : bool :=
  match v with JNum _ => true | _ => false end.

Fixpoint joinStrings (sep : string) (l : list string) : string :=
  match l with
  | [] => ""
  | [s] => s
  | s :: rest => s ++ sep ++ joinStrings sep rest
  end.

(** [String(v)]; an array is its elements joined with a comma, where
    [null] and [undefined] elements contribute the empty string. *)
Fixpoint toString (v : JsValue) : string :=
  match v with
  | JUndefined => "undefined"
  | JNull => "null"
  | JBool true => "true"
  | JBool false => "false"
  | JNum x => numberToString x
  | JStr s => s
  | JArr items =>
      joinStrings ","
        (map (fun x => if isNullish x then "" else toString x) items)
  | JObj _ => "[object Object]"
  end.

(** [Array.prototype.join(sep)]. *)
Definition arrayJoin (sep : string) (items : list JsValue) : string :=
  joinStrings sep
    (map (fun x => if isNullish x then "" else toString x) items).

(** Own-property lookup in an entry list. *)
Fixpoint lookup (name : string) (props : list (string * JsValue))
  : option JsValue :=
  match props with
  | [] => None
  | (k, v) :: rest => if String.eqb k name then Some v else lookup name rest
  end.

(** ["name" in obj] for a plain object. *)
Definition hasProperty (name : string) (props : list (string * JsValue))
  : bool :=
  match lookup name props with Some _ => true | None => false end.

(** [v.name] for a value that is neither [null] nor [undefined] and a
    property name that is not an index.  Arrays and strings only carry
    [length]; booleans and numbers carry nothing. *)
Definition getProp (v : JsValue) (name : string) : JsValue :=
  match v with
  | JObj props =>
      match lookup name props with Some x => x | None => JUndefined end
  | JArr items =>
      if String.eqb name "length" then JNum (num (Z.of_nat (List.length items)))
      else JUndefined
  | JStr s =>
      if String.eqb name "length" then JNum (num (Z.of_nat (String.length s)))
      else JUndefined
  | _ => JUndefined
  end.

(** [v?.name]. *)
Definition optProp (v : JsValue) (name : string) : JsValue :=
  if isNullish v then JUndefined else getProp v name.

(** [v?.[0]]. *)
Definition optFirst (v : JsValue) : JsValue :=
  match v with
  | JArr (x :: _) => x
  | JStr (String c _) => JStr (String c "")
  | JObj props =>
      match lookup "0" props with Some x => x | None => JUndefined end
  | _ => JUndefined
  end.

(** [obj[name] = value] on an entry list: an existing property keeps its
    place, a new one goes last. *)
Fixpoint setEntry {A : Type} (name : string) (value : A)
  (props : list (string * A)) : list (string * A) :=
  match props with
  | [] => [(name, value)]
  | (k, v) :: rest =>
      if String.eqb k name then (k, value) :: rest
      else (k, v) :: setEntry name value rest
  end.

(** The array index a property name stands for, if any: the name is the
    canonical decimal numeral of an integer from 0 to 2^32 - 2. *)
Definition arrayIndex (name : string) : option Z :=
  match NilZero.uint_of_string name with
  | Some digits =>
      let index := Z.of_uint digits in
      if String.eqb (decimal index) name && (index <=? 4294967294)%Z
      then Some index else None
  | None => None
  end.

Definition isArrayIndex (name : string) : bool :=
  match arrayIndex name with Some _ => true | None => false end.

Fixpoint insertByIndex {A : Type} (index : Z) (entry : string * A)
  (sorted : list (Z * (string * A))) : list (Z * (string * A)) :=
  match sorted with
  | [] => [(index, entry)]
  | (i, e) :: rest =>
      if (index <=? i)%Z then (index, entry) :: sorted
      else (i, e) :: insertByIndex index entry rest
  end.

(** The properties whose names are array indices, by ascending index. *)
Fixpoint indexedEntries {A : Type} (props : list (string * A))
  : list (Z * (string * A)) :=
  match props with
  | [] => []
  | kv :: rest =>
      match arrayIndex (fst kv) with
      | Some index => insertByIndex index kv (indexedEntries rest)
      | None => indexedEntries rest
      end
  end.

(** The order of [Object.entries], [for ... in], [JSON.stringify] and the
    spread syntax on an ordinary object: the properties whose names are
    array indices come first, by ascending index, then the other
    properties in the order of their creation. *)
Definition objectEntries {A : Type} (props : list (string * A))
  : list (string * A) :=
  (map snd (indexedEntries props)
   ++ List.filter (fun kv => negb (isArrayIndex (fst kv))) props)%list.

(** [for (const [name, value] of Object.entries(obj)) body(name, value)]:
    the loop bodies in the order in which the loop runs them. *)
Definition forEachEntry {A B : Type} (body : string -> A -> B)
  (props : list (string * A)) : list B :=
  map snd (objectEntries (map (fun kv => (fst kv, body (fst kv) (snd kv)))
                            props)).

(** [{...base, ...extra}]. *)
Definition spread {A : Type} (base extra : list (string * A))
  : list (string * A) :=
  fold_left (fun acc kv => setEntry (fst kv) (snd kv) acc)
    (objectEntries extra) base.

(** Outcome of a call that may throw or whose promise may reject. *)
Inductive Completion (A : Type) : Type :=
| Normal (value : A)
| Abrupt (thrown : JsValue).
Arguments Normal {A} value.
Arguments Abrupt {A} thrown.

(** [new TypeError(message)], as far as a caller reads it. *)
Definition typeError (message : string) : JsValue :=
  JObj [("name", JStr "TypeError"); ("message", JStr message)].

(** The elements of an array or the characters of a string under their
    indices. *)
Fixpoint indexFrom {A : Type} (i : nat) (items : list A) : list (string * A) :=
  match items with
  | [] => []
  | x :: rest => (decimal (Z.of_nat i), x) :: indexFrom (S i) rest
  end.

(** [Object.entries(v)]: [null] and [undefined] cannot be converted to an
    object, a boolean or a number has no own property. *)
Definition entriesOf (v : JsValue) : Completion (list (string * JsValue)) :=
  match v with
  | JUndefined | JNull =>
      Abrupt (typeError "Cannot convert undefined or null to object")
  | JBool _ | JNum _ => Normal []
  | JStr s =>
      Normal (indexFrom 0
                (map (fun c => JStr (String c "")) (list_ascii_of_string s)))
  | JArr items => Normal (indexFrom 0 items)
  | JObj props => Normal (objectEntries props)
  end.

End Js.
Export Js.

(* ------------------------------------------------------------------ *)
(** ** Strings: trimming, prefixes, percent-encoding *)

Module Text.

Definition codeOf (c : ascii) : nat := nat_of_ascii c.

(** White space and line terminators removed by [String.prototype.trim],
    among the code units below 256: TAB, LF, VT, FF, CR, SP, NBSP. *)
Definition isWhiteSpace (c : ascii) : bool :=
  let n := codeOf c in
  ((9 <=? n) && (n <=? 13) || (n =? 32) || (n =? 160))%nat.

Fixpoint dropWhile (p : ascii -> bool) (s : string) : string :=
  match s with
  | "" => ""
  | String c rest => if p c then dropWhile p rest else s
  end.

Fixpoint dropWhileEnd (p : ascii -> bool) (s : string) : string :=
  match s with
  | "" => ""
  | String c rest =>
      let kept := dropWhileEnd p rest in
      if p c && String.eqb kept "" then "" else String c kept
  end.

(** [s.trim()]. *)
Definition trim (s : string) : string :=
  dropWhileEnd isWhiteSpace (dropWhile isWhiteSpace s).

Definition isSlash (c : ascii) : bool := Ascii.eqb c "/"%char.

(** [s.replace(/\/+$/, "")]. *)
Definition stripTrailingSlashes (s : string) : string :=
  dropWhileEnd isSlash s.

(** [s.startsWith(p)]. *)
Definition startsWith (p s : string) : bool := String.prefix p s.

(** [s.includes(needle)]. *)
Fixpoint includes (needle s : string) : bool :=
  String.prefix needle s
  || match s with
     | "" => false
     | String _ rest => includes needle rest
     end.

Definition hexDigit (n : nat) : ascii :=
  ascii_of_nat (if (n <? 10)%nat then 48 + n else 55 + n).

(** [%XY] for one byte. *)
Definition percentByte (b : nat) : string :=
  String "%"%char
    (String (hexDigit (b / 16)) (String (hexDigit (b mod 16)) "")).

(** UTF-8 bytes of a code unit below 256. *)
Definition utf8Bytes (c : ascii) : list nat :=
  let n := codeOf c in
  if (n <? 128)%nat then [n] else [192 + n / 64; 128 + n mod 64].

Definition isAlphaNum (c : ascii) : bool :=
  let n := codeOf c in
  ((48 <=? n) && (n <=? 57) || (65 <=? n) && (n <=? 90)
   || (97 <=? n) && (n <=? 122))%nat.

Definition isOneOf (chars : string) (c : ascii) : bool :=
  existsb (Ascii.eqb c) (list_ascii_of_string chars).

Definition percentEncodeChar (keep : ascii -> bool) (c : ascii) : string :=
  if keep c then String c ""
  else String.concat "" (map percentByte (utf8Bytes c)).

Fixpoint percentEncode (keep : ascii -> bool) (s : string) : string :=
  match s with
  | "" => ""
  | String c rest => percentEncodeChar keep c ++ percentEncode keep rest
  end.

(** [encodeURIComponent(s)]: everything is escaped but letters, digits and
    [- _ . ! ~ * ' ( )]. *)
Definition encodeURIComponent (s : string) : string :=
  percentEncode (fun c => isAlphaNum c || isOneOf "-_.!~*'()" c) s.

(** The [application/x-www-form-urlencoded] byte serialiser that
    [URLSearchParams.prototype.toString] applies to names and values:
    a space becomes [+], letters, digits and [* - . _] stay, every other
    byte is percent-encoded. *)
Fixpoint formUrlEncode (s : string) : string :=
  match s with
  | "" => ""
  | String c rest =>
      (if Ascii.eqb c " "%char then "+"
       else percentEncodeChar (fun c => isAlphaNum c || isOneOf "*-._" c) c)
      ++ formUrlEncode rest
  end.

End Text.
Export Text.

(* ------------------------------------------------------------------ *)
(** ** [JSON.stringify] *)

Module Json.

Definition doubleQuote : ascii := ascii_of_nat 34.
Definition backslash : ascii := ascii_of_nat 92.

Definition lowerHexDigit (n : nat) : ascii :=
  ascii_of_nat (if (n <? 10)%nat then 48 + n else 87 + n).

(** The escape of one code unit inside a JSON string literal. *)
Definition quoteChar (c : ascii) : string :=
  let n := codeOf c in
  if (n =? 34)%nat then String backslash (String doubleQuote "")
  else if (n =? 92)%nat then String backslash (String backslash "")
  else if (n =? 8)%nat then String backslash "b"
  else if (n =? 12)%nat then String backslash "f"
  else if (n =? 10)%nat then String backslash "n"
  else if (n =? 13)%nat then String backslash "r"
  else if (n =? 9)%nat then String backslash "t"
  else if (n <? 32)%nat then
    String backslash
      (String "u" (String "0" (String "0"
         (String (lowerHexDigit (n / 16))
            (String (lowerHexDigit (n mod 16)) "")))))
  else String c "".

Fixpoint quoteBody (s : string) : string :=
  match s with
  | "" => ""
  | String c rest => quoteChar c ++ quoteBody rest
  end.

Definition quoteJson (s : string) : string :=
  String doubleQuote (quoteBody s ++ String doubleQuote "").

(** [JSON.stringify(v)]; [None] is the result [undefined].  An [undefined]
    array element prints as [null], an [undefined] property is left out, a
    number that is not finite prints as [null]. *)
Fixpoint stringify (v : JsValue) : option string :=
  match v with
  | JUndefined => None
  | JNull => Some "null"
  | JBool true => Some "true"
  | JBool false => Some "false"
  | JNum x => Some (if numberIsFinite x then numberToString x else "null")
  | JStr s => Some (quoteJson s)
  | JArr items =>
      Some ("[" ++ joinStrings ","
                     (map (fun x =>
                             match stringify x with
                             | Some text => text
                             | None => "null"
                             end) items)
                ++ "]")
  | JObj props =>
      Some ("{" ++ joinStrings ","
                     (concat
                        (forEachEntry
                           (fun name value =>
                              match stringify value with
                              | Some text => [quoteJson name ++ ":" ++ text]
                              | None => []
                              end) props))
                ++ "}")
  end.

End Json.
Export Json.

(* ------------------------------------------------------------------ *)
(** ** Query serialiser ([serializeQuery], client.js lines 9-45) *)

Module Query.

(** The list behind a [URLSearchParams] object. *)
Definition SearchParams := list (string * string).

(** [searchParams.append(name, value)]. *)
Definition spAppend (sp : SearchParams) (name value : string) : SearchParams :=
  (sp ++ [(name, value)])%list.

(** [searchParams.toString()]. *)
Definition spToString (sp : SearchParams) : string :=
  joinStrings "&"
    (map (fun nv => formUrlEncode (fst nv) ++ "=" ++ formUrlEncode (snd nv)) sp).

Definition isPlainObject (v : JsValue) : bool :=
  match v with JObj _ => true | _ => false end.

(** [`${key}[${nestedKey}]`]. *)
Definition compositeKey (key nestedKey : string) : string :=
  key ++ "[" ++ nestedKey ++ "]".

(** [appendQueryParam(searchParams, key, value)]; the parameter list is
    passed in and the extended list returned.  For a nested object the
    bodies of the loop over [Object.entries(value)] are run one after the
    other on the list. *)
Fixpoint appendQueryParam (sp : SearchParams) (key : string) (value : JsValue)
  {struct value} : SearchParams :=
  match value with
  | JUndefined | JNull => sp
  | JArr items =>
      match items with
      | [] => sp
      | _ :: _ => spAppend sp key (arrayJoin "," items)
      end
  | JObj props =>
      fold_left (fun sp body => body sp)
        (forEachEntry
           (fun nestedKey nestedValue sp =>
              appendQueryParam sp (compositeKey key nestedKey) nestedValue)
           props)
        sp
  | _ => spAppend sp key (toString value)
  end.

(** The loop [for (const [k, v] of entries) appendQueryParam(sp, mk(k), v)]
    over entries that are already in iteration order. *)
Fixpoint appendEntries (mk : string -> string) (sp : SearchParams)
  (l : list (string * JsValue)) : SearchParams :=
  match l with
  | [] => sp
  | (k, v) :: l' => appendEntries mk (appendQueryParam sp (mk k) v) l'
  end.

(** [serializeQuery(query = {})]: the default applies to [undefined]. *)
Definition serializeQuery (query : JsValue) : Completion string :=
  let query := match query with JUndefined => JObj [] | _ => query end in
  match entriesOf query with
  | Abrupt e => Abrupt e
  | Normal entries =>
      Normal (spToString (appendEntries (fun key => key) [] entries))
  end.

End Query.
Export Query.

(* ------------------------------------------------------------------ *)
(** ** Completions and the transport log *)

Module Effects.

(** [body] of the options, where a [FormData] instance is told apart from
    every other value ([body instanceof FormData]). *)
Inductive BodyArg : Type :=
| BodyValue (v : JsValue)
| BodyFormData (parts : list (string * string)).

(** What is handed to the transport as [body]: the caller's value untouched,
    or the text [JSON.stringify] made of it. *)
Inductive WireBody : Type :=
| WirePassThrough (b : BodyArg)
| WireText (text : option string).

(** The second argument of the transport. *)
Record FetchInit : Type := mkFetchInit {
  init_method : string;
  init_headers : list (string * string);
  init_body : WireBody;
  init_signal : JsValue
}.

Record FetchCall : Type := mkFetchCall {
  call_url : string;
  call_init : FetchInit
}.

(** The part of a [Response] the client reads.  [resp_headers] is [None]
    when the object has no [headers]; otherwise it is its [get] method.
    [resp_json] and [resp_text] are the outcomes of [json()] and [text()]. *)
Record Response : Type := mkResponse {
  resp_ok : bool;
  resp_status : Z;
  resp_headers : option (string -> option string);
  resp_json : Completion JsValue;
  resp_text : Completion string
}.

(** An injected transport: given the calls made so far and the current call
    it resolves to a response or throws/rejects. *)
Definition Transport := list FetchCall -> FetchCall -> Completion Response.

(** Computations that may call the transport and may complete abruptly. *)
Definition M (A : Type) : Type :=
  list FetchCall -> Completion A * list FetchCall.

Definition ret {A : Type} (a : A) : M A := fun log => (Normal a, log).

Definition bind {A B : Type} (m : M A) (k : A -> M B) : M B :=
  fun log =>
    match m log with
    | (Normal a, log') => k a log'
    | (Abrupt e, log') => (Abrupt e, log')
    end.

(** [await] of an outcome that is already determined. *)
Definition await {A : Type} (c : Completion A) : M A := fun log => (c, log).

(** [try { m } catch (error) { ... }]: the outcome of [m] as a value. *)
Definition attempt {A : Type} (m : M A) : M (Completion A) :=
  fun log => let (c, log') := m log in (Normal c, log').

(** [fetchFn(url, init)]. *)
Definition invoke (fetchFn : Transport) (call : FetchCall) : M Response :=
  fun log => (fetchFn log call, (log ++ [call])%list).

(** Number of transport invocations a computation makes from [log]. *)
Definition invocations {A : Type} (m : M A) (log : list FetchCall) : nat :=
  (List.length (snd (m log)) - List.length log)%nat.

End Effects.
Export Effects.

Notation "x <- m ;; k" := (bind m (fun x => k))
  (at level 61, m at next level, right associativity).

(* ------------------------------------------------------------------ *)
(** ** The result envelope *)

Module Envelope.

(** [ApiError]: [status] is [None] for [null]; [message] and [code] hold
    whatever value the remote payload or the thrown error carried. *)
Record ApiError : Type := mkApiError {
  type : string;
  message : JsValue;
  status : option Z;
  code : JsValue;
  details : JsValue;
  retryable : bool
}.

(** The members of the TypeScript union [ApiErrorType]. *)
Definition ApiErrorType : list string :=
  ["api"; "config"; "http"; "network"; "not_found"; "parse"; "validation"].

(** The object every operation returns; [error] is [None] for [null]. *)
Record ApiResult : Type := mkApiResult {
  ok : bool;
  data : JsValue;
  meta : JsValue;
  error : option ApiError
}.

(** A destructuring default: it applies when the property is [undefined]. *)
Definition orDefault (d v : JsValue) : JsValue :=
  match v with JUndefined => d | _ => v end.

(** [createApiError({type, message, status, code, details, retryable})].
    A caller that leaves [status] or [retryable] out passes [None] or
    [false], their defaults; [code] and [details] default to [null]. *)
Definition createApiError (type : string) (message : JsValue)
  (status : option Z) (code details : JsValue) (retryable : bool) : ApiError :=
  {| type := type;
     message := message;
     status := status;
     code := orDefault JNull code;
     details := orDefault JNull details;
     retryable := retryable |}.

Definition createFailureResult (error : ApiError) : ApiResult :=
  {| ok := false; data := JNull; meta := JNull; error := Some error |}.

End Envelope.
Export Envelope.

(* ------------------------------------------------------------------ *)
(** ** Client core ([createDirectusClient], client.js) *)

Module Client.

(** [token]: a plain value, or a zero-argument provider with the outcome of
    calling (and awaiting) it. *)
Inductive TokenSource : Type :=
| TokenValue (v : JsValue)
| TokenProvider (provider : unit -> Completion JsValue).

(** The options of [request]; [None] stands for an absent property, and an
    absent [query] is [JUndefined]. *)
Record RequestOptions : Type := mkRequestOptions {
  method : option string;
  query : JsValue;
  body : BodyArg;
  headers : option (list (string * string));
  signal : JsValue
}.

(** [{}]. *)
Definition noOptions : RequestOptions :=
  {| method := None; query := JUndefined; body := BodyValue JUndefined;
     headers := None; signal := JUndefined |}.

Definition sanitizeBaseUrl (baseUrl : JsValue) : JsValue :=
  match baseUrl with
  | JStr s =>
      if String.eqb (trim s) "" then JNull
      else JStr (stripTrailingSlashes (trim s))
  | _ => JNull
  end.

(** [resolveToken(tokenOrProvider)]: the outcome of the promise it returns. *)
Definition resolveToken (tokenOrProvider : TokenSource) : Completion JsValue :=
  match tokenOrProvider with
  | TokenValue v => if negb (toBoolean v) then Normal JNull else Normal v
  | TokenProvider provider => provider tt
  end.

Definition buildUrl (baseUrl path : string) (query : JsValue)
  : Completion string :=
  let normalizedPath := if startsWith "/" path then path else "/" ++ path in
  match serializeQuery query with
  | Abrupt e => Abrupt e
  | Normal queryString =>
      Normal (if String.eqb queryString ""
              then baseUrl ++ normalizedPath
              else baseUrl ++ normalizedPath ++ "?" ++ queryString)
  end.

(** [response.headers?.get("content-type") || ""]. *)
Definition contentTypeOf (response : Response) : string :=
  match resp_headers response with
  | Some get =>
      match get "content-type" with Some value => value | None => "" end
  | None => ""
  end.

(** [parseResponse(response)]: the outcome of the promise it returns. *)
Definition parseResponse (response : Response) : Completion JsValue :=
  let contentType := contentTypeOf response in
  let isJson := includes "application/json" contentType in
  if isJson then resp_json response
  else
    match resp_text response with
    | Abrupt e => Abrupt e
    | Normal text =>
        Normal (if negb (String.eqb text "") then JObj [("raw", JStr text)]
                else JObj [])
    end.

Definition mapDirectusError (payload : JsValue) (status : Z) : ApiError :=
  let directusError :=
    js_or (js_or (js_or (optFirst (optProp payload "errors"))
                        (optProp payload "error"))
                 (optProp payload "errors"))
          payload in
  createApiError "api"
    (js_or (optProp directusError "message")
       (JStr ("Directus API request failed with status "
              ++ numberToString (num status) ++ ".")))
    (Some status)
    (js_or (js_or (optProp (optProp directusError "extensions") "code")
                  (optProp directusError "code"))
           JNull)
    directusError
    (500 <=? status)%Z.

Definition mapHttpError (status : Z) (payload : JsValue) : ApiError :=
  createApiError "http"
    (JStr ("HTTP request failed with status "
          ++ numberToString (num status) ++ "."))
    (Some status)
    JUndefined
    (js_or payload JNull)
    (500 <=? status)%Z.

Definition unwrapData (payload : JsValue) : JsValue * JsValue :=
  match payload with
  | JObj props =>
      if hasProperty "data" props
      then (getProp payload "data", js_or (getProp payload "meta") JNull)
      else (payload, JNull)
  | _ => (payload, JNull)
  end.

(** The body as handed to the transport. *)
Definition encodeBody (body : BodyArg) : WireBody :=
  match body with
  | BodyValue JUndefined | BodyValue JNull | BodyFormData _ =>
      WirePassThrough body
  | BodyValue v => WireText (stringify v)
  end.

(** [body !== undefined && body !== null && !(body instanceof FormData)]. *)
Definition isJsonBody (body : BodyArg) : bool :=
  match body with
  | BodyValue JUndefined | BodyValue JNull | BodyFormData _ => false
  | BodyValue _ => true
  end.

Section Instance.

(** What the closure of [createDirectusClient] captures. *)
Variable normalizedBaseUrl : JsValue.
Variable token : TokenSource.
Variable fetchFn : Transport.

(** The headers [request] assembles, given the resolved token. *)
Definition requestHeaders (options : RequestOptions) (resolvedToken : JsValue)
  : list (string * string) :=
  let hs :=
    spread [("Accept", "application/json")]
      (match headers options with Some h => h | None => [] end) in
  let hs :=
    if isJsonBody (body options)
    then setEntry "Content-Type" "application/json" hs else hs in
  if toBoolean resolvedToken
  then setEntry "Authorization" ("Bearer " ++ toString resolvedToken) hs
  else hs.

(** The arguments [request] passes to the transport. *)
Definition fetchArguments (url : string) (options : RequestOptions)
  (resolvedToken : JsValue) : FetchCall :=
  {| call_url := url;
     call_init :=
       {| init_method :=
            match method options with Some m => m | None => "GET" end;
          init_headers := requestHeaders options resolvedToken;
          init_body := encodeBody (body options);
          init_signal := signal options |} |}.

Definition request (path : string) (options : RequestOptions) : M ApiResult :=
  if negb (toBoolean normalizedBaseUrl) then
    ret (createFailureResult
           (createApiError "config"
              (JStr "Directus baseUrl is missing or invalid.")
              None JUndefined JUndefined false))
  else
    resolvedToken <- await (resolveToken token) ;;
    url <- await (buildUrl (toString normalizedBaseUrl) path
                    (query options)) ;;
    fetched <- attempt (invoke fetchFn
                          (fetchArguments url options resolvedToken)) ;;
    match fetched with
    | Abrupt error =>
        ret (createFailureResult
               (createApiError "network"
                  (js_or (optProp error "message")
                     (JStr "Network request failed."))
                  None JUndefined error true))
    | Normal response =>
        parsed <- attempt (await (parseResponse response)) ;;
        match parsed with
        | Abrupt error =>
            ret (createFailureResult
                   (createApiError "parse"
                      (JStr "Unable to parse API response.")
                      (Some (resp_status response)) JUndefined error false))
        | Normal payload =>
            if negb (resp_ok response) then
              let hasDirectusError :=
                toBoolean (js_or (optProp payload "errors")
                                 (optProp payload "error")) in
              ret (createFailureResult
                     (if hasDirectusError
                      then mapDirectusError payload (resp_status response)
                      else mapHttpError (resp_status response) payload))
            else
              let (data, meta) := unwrapData payload in
              ret {| ok := true; data := data; meta := meta; error := None |}
        end
    end.

(** [{...options, method}] and [{...options, method, body}]. *)
Definition withMethod (m : string) (options : RequestOptions)
  : RequestOptions :=
  {| method := Some m; query := query options; body := body options;
     headers := headers options; signal := signal options |}.

Definition withMethodBody (m : string) (b : BodyArg) (options : RequestOptions)
  : RequestOptions :=
  {| method := Some m; query := query options; body := b;
     headers := headers options; signal := signal options |}.

Definition get (path : string) (options : RequestOptions) : M ApiResult :=
  request path (withMethod "GET" options).

Definition post (path : string) (body : BodyArg) (options : RequestOptions)
  : M ApiResult :=
  request path (withMethodBody "POST" body options).

Definition patch (path : string) (body : BodyArg) (options : RequestOptions)
  : M ApiResult :=
  request path (withMethodBody "PATCH" body options).

Definition delete (path : string) (options : RequestOptions) : M ApiResult :=
  request path (withMethod "DELETE" options).

(** [graphql({query, variables, operationName, signal})]. *)
Definition graphql (gqlQuery variables operationName gqlSignal : JsValue)
  : M ApiResult :=
  request "/graphql"
    {| method := Some "POST";
       query := JUndefined;
       body := BodyValue (JObj [("query", gqlQuery);
                                ("variables", variables);
                                ("operationName", operationName)]);
       headers := None;
       signal := gqlSignal |}.

End Instance.

(** The object [createDirectusClient] returns. *)
Record DirectusClient : Type := mkDirectusClient {
  client_request : string -> RequestOptions -> M ApiResult;
  client_get : string -> RequestOptions -> M ApiResult;
  client_post : string -> BodyArg -> RequestOptions -> M ApiResult;
  client_patch : string -> BodyArg -> RequestOptions -> M ApiResult;
  client_delete : string -> RequestOptions -> M ApiResult;
  client_graphql : JsValue -> JsValue -> JsValue -> JsValue -> M ApiResult
}.

(** [createDirectusClient({baseUrl, token, fetchFn})]; an absent [token] is
    [TokenValue JNull]. *)
Definition createDirectusClient (baseUrl : JsValue) (token : TokenSource)
  (fetchFn : Transport) : DirectusClient :=
  let normalizedBaseUrl := sanitizeBaseUrl baseUrl in
  {| client_request := request normalizedBaseUrl token fetchFn;
     client_get := get normalizedBaseUrl token fetchFn;
     client_post := post normalizedBaseUrl token fetchFn;
     client_patch := patch normalizedBaseUrl token fetchFn;
     client_delete := delete normalizedBaseUrl token fetchFn;
     client_graphql := graphql normalizedBaseUrl token fetchFn |}.

End Client.
Export Client.

(* ------------------------------------------------------------------ *)
(** ** Products helper ([createProductsApi], products.js) *)

Module Products.

Definition toCommaSeparated (value : JsValue) : JsValue :=
  match value with
  | JArr items => JStr (arrayJoin "," items)
  | _ => value
  end.

Definition createValidationError (message : string) (details : JsValue)
  : ApiResult :=
  {| ok := false;
     data := JNull;
     meta := JNull;
     error := Some {| type := "validation";
                      message := JStr message;
                      status := None;
                      code := JNull;
                      details := orDefault JNull details;
                      retryable := false |} |}.

(** The options of [listProducts]; an absent property is [JUndefined]. *)
Record ListOptions : Type := mkListOptions {
  filter : JsValue;
  fields : JsValue;
  limit : JsValue;
  page : JsValue;
  search : JsValue;
  sort : JsValue;
  list_signal : JsValue
}.

Definition buildProductsQuery (o : ListOptions) : list (string * JsValue) :=
  let query := [] in
  let query :=
    if toBoolean (filter o) then setEntry "filter" (filter o) query
    else query in
  let query :=
    if toBoolean (fields o)
    then setEntry "fields" (toCommaSeparated (fields o)) query else query in
  let query :=
    if toBoolean (sort o)
    then setEntry "sort" (toCommaSeparated (sort o)) query else query in
  let query :=
    if isNumber (limit o) then setEntry "limit" (limit o) query else query in
  let query :=
    if isNumber (page o) then setEntry "page" (page o) query else query in
  if toBoolean (search o) then setEntry "search" (search o) query else query.

(** The options object [{ query, signal }] handed to [client.get]. *)
Definition getOptions (query signal : JsValue) : RequestOptions :=
  {| method := None; query := query; body := BodyValue JUndefined;
     headers := None; signal := signal |}.

Section Api.

Variable client : DirectusClient.
Variable collection : string.

Definition collectionPath : string := "/items/" ++ encodeURIComponent collection.

Definition listProducts (options : ListOptions) : M ApiResult :=
  let query := buildProductsQuery options in
  result <- client_get client collectionPath
              (getOptions (JObj query) (list_signal options)) ;;
  if negb (ok result) then ret result
  else
    let products := if isArray (data result) then data result else JArr [] in
    ret {| ok := true;
           data := products;
           meta := js_or (meta result) JNull;
           error := None |}.

(** [productId === undefined || productId === null || productId === ""]. *)
Definition isMissingId (productId : JsValue) : bool :=
  match productId with
  | JUndefined | JNull | JStr "" => true
  | _ => false
  end.

(** [getProductDetail(productId, { signal, fields })]. *)
Definition getProductDetail (productId : JsValue)
  (detailFields detailSignal : JsValue) : M ApiResult :=
  if isMissingId productId then
    ret (createValidationError "A valid productId is required."
           (JObj [("productId", productId)]))
  else
    let query :=
      if toBoolean detailFields
      then JObj [("fields", toCommaSeparated detailFields)]
      else JUndefined in
    client_get client
      (collectionPath ++ "/" ++ encodeURIComponent (toString productId))
      (getOptions query detailSignal).

Definition queryProducts (options : ListOptions) : M ApiResult :=
  listProducts options.

End Api.

(** The object [createProductsApi] returns. *)
Record ProductsApi : Type := mkProductsApi {
  api_listProducts : ListOptions -> M ApiResult;
  api_getProductDetail : JsValue -> JsValue -> JsValue -> M ApiResult;
  api_queryProducts : ListOptions -> M ApiResult
}.

(** [createProductsApi(client, { collection })]; the default collection is
    ["Products"]. *)
Definition createProductsApi (client : DirectusClient) (collection : string)
  : ProductsApi :=
  {| api_listProducts := listProducts client collection;
     api_getProductDetail := getProductDetail client collection;
     api_queryProducts := queryProducts client collection |}.

End Products.
Export Products.

(* ------------------------------------------------------------------ *)
(** ** The specification's own words, and fixtures of the test suite *)

Module Spec.

(** Section 4.1 of the specification: what one entry [(key, value)] of the
    mapping contributes.  An absent value and an empty array contribute
    nothing, a non-empty array one parameter with its elements joined by a
    comma, a nested mapping what its entries contribute, entry after entry,
    under the composite key [key[nestedKey]], any other value one parameter
    with its string form. *)
Fixpoint specParams (key : string) (value : JsValue) : list (string * string) :=
  match value with
  | JUndefined | JNull => []
  | JArr [] => []
  | JArr items => [(key, arrayJoin "," items)]
  | JObj props =>
      concat
        (forEachEntry
           (fun nestedKey nestedValue =>
              specParams (key ++ "[" ++ nestedKey ++ "]") nestedValue)
           props)
  | scalar => [(key, toString scalar)]
  end.

(** The parameters of the entries of a mapping, entry after entry. *)
Definition specQueryParams (entries : list (string * JsValue))
  : list (string * string) :=
  flat_map (fun kv => specParams (fst kv) (snd kv)) entries.

(** [name=value] pairs, each side escaped, separated by [&]. *)
Definition specSerialize (entries : list (string * JsValue)) : string :=
  joinStrings "&"
    (map (fun nv => formUrlEncode (fst nv) ++ "=" ++ formUrlEncode (snd nv))
       (specQueryParams entries)).

(** The value of a hexadecimal digit. *)
Definition hexValue (c : ascii) : option nat :=
  let n := codeOf c in
  if ((48 <=? n) && (n <=? 57))%nat then Some (n - 48)%nat
  else if ((65 <=? n) && (n <=? 70))%nat then Some (n - 55)%nat
  else if ((97 <=? n) && (n <=? 102))%nat then Some (n - 87)%nat
  else None.

(** Percent-decoding: the bytes an escaped text stands for.  [%XY] is the
    byte with the hexadecimal numeral [XY]; with [plus], a [+] is a
    space. *)
Fixpoint percentDecode (plus : bool) (s : string) : list nat :=
  match s with
  | "" => []
  | String c rest =>
      if Ascii.eqb c "%"%char then
        match rest with
        | String h (String l rest') =>
            match hexValue h, hexValue l with
            | Some a, Some b => (16 * a + b)%nat :: percentDecode plus rest'
            | _, _ => codeOf c :: percentDecode plus rest
            end
        | _ => codeOf c :: percentDecode plus rest
        end
      else if plus && Ascii.eqb c "+"%char then 32%nat :: percentDecode plus rest
      else codeOf c :: percentDecode plus rest
  end.

(** The text whose UTF-8 encoding the bytes are, for code points below
    256; [None] for any other byte sequence. *)
Fixpoint utf8Decode (bytes : list nat) : option string :=
  match bytes with
  | [] => Some ""
  | b :: rest =>
      if (b <? 128)%nat
      then option_map (String (ascii_of_nat b)) (utf8Decode rest)
      else
        match rest with
        | b' :: rest' =>
            if ((194 <=? b) && (b <=? 195) && (128 <=? b') && (b' <=? 191))%nat
            then option_map (String (ascii_of_nat ((b - 192) * 64 + (b' - 128))))
                   (utf8Decode rest')
            else None
        | [] => None
        end
  end.

(** What an escaped query name or value stands for. *)
Definition formUrlDecode (s : string) : option string :=
  utf8Decode (percentDecode true s).


(** The pieces of a text between the occurrences of a separator. *)
Fixpoint splitOn (sep : ascii) (s : string) : list string :=
  match s with
  | "" => [""]
  | String c rest =>
      if Ascii.eqb c sep then "" :: splitOn sep rest
      else match splitOn sep rest with
           | piece :: pieces => String c piece :: pieces
           | [] => [String c ""]
           end
  end.

(** The parts of a text before and after the first occurrence of a
    separator. *)
Fixpoint splitFirst (sep : ascii) (s : string) : string * string :=
  match s with
  | "" => ("", "")
  | String c rest =>
      if Ascii.eqb c sep then ("", rest)
      else let (before, after) := splitFirst sep rest in
           (String c before, after)
  end.

(** The parameter a piece [name=value] of a query string stands for. *)
Definition parseParameter (piece : string) : option (string * string) :=
  let (name, value) := splitFirst "="%char piece in
  match formUrlDecode name, formUrlDecode value with
  | Some n, Some v => Some (n, v)
  | _, _ => None
  end.

Fixpoint allSome {A : Type} (l : list (option A)) : option (list A) :=
  match l with
  | [] => Some []
  | Some x :: rest => option_map (cons x) (allSome rest)
  | None :: _ => None
  end.

(** The parameters a query string stands for: its pieces between [&], each
    a name and a value around the first [=], both unescaped. *)
Definition parseQuery (text : string) : option (list (string * string)) :=
  if String.eqb text "" then Some []
  else allSome (map parseParameter (splitOn "&"%char text)).

(** The order of [Object.entries] in words: [entries] holds the
    properties [props], those named by an array index first, by ascending
    index, and then the others in the order of their creation. *)
Definition entriesOrder {A : Type} (props entries : list (string * A))
  : Prop :=
  exists indexed : list (Z * (string * A)),
    entries
    = (map snd indexed
       ++ List.filter (fun kv => negb (isArrayIndex (fst kv))) props)%list
    /\ Permutation (map snd indexed)
         (List.filter (fun kv => isArrayIndex (fst kv)) props)
    /\ Forall (fun ikv => arrayIndex (fst (snd ikv)) = Some (fst ikv)) indexed
    /\ Sorted Z.le (map fst indexed).

(** Envelope exclusivity as the specification words it: exactly one of
    [data] and [error] is present and non-null, and it matches [ok]. *)
Definition envelopeExclusive (r : ApiResult) : Prop :=
  (ok r = true /\ isNullish (data r) = false /\ error r = None)
  \/ (ok r = false /\ data r = JNull /\ meta r = JNull /\ error r <> None).

(** What the envelope guarantees on every path: [ok] tells whether [error]
    is null, and a failure carries neither data nor meta. *)
Definition envelopeConsistent (r : ApiResult) : Prop :=
  (ok r = true /\ error r = None)
  \/ (ok r = false /\ data r = JNull /\ meta r = JNull /\ error r <> None).

(** The operations of the client core and of the products helper. *)
Inductive Operation : Type :=
| OpRequest (path : string) (options : RequestOptions)
| OpGet (path : string) (options : RequestOptions)
| OpPost (path : string) (body : BodyArg) (options : RequestOptions)
| OpPatch (path : string) (body : BodyArg) (options : RequestOptions)
| OpDelete (path : string) (options : RequestOptions)
| OpGraphql (query variables operationName signal : JsValue)
| OpListProducts (options : ListOptions)
| OpGetProductDetail (productId fields signal : JsValue)
| OpQueryProducts (options : ListOptions).

Definition isListOperation (op : Operation) : bool :=
  match op with
  | OpListProducts _ | OpQueryProducts _ => true
  | _ => false
  end.

(** Calling an operation on a client and the products helper built on it. *)
Definition perform (client : DirectusClient) (collection : string)
  (op : Operation) : M ApiResult :=
  let api := createProductsApi client collection in
  match op with
  | OpRequest path options => client_request client path options
  | OpGet path options => client_get client path options
  | OpPost path body options => client_post client path body options
  | OpPatch path body options => client_patch client path body options
  | OpDelete path options => client_delete client path options
  | OpGraphql q v o s => client_graphql client q v o s
  | OpListProducts options => api_listProducts api options
  | OpGetProductDetail productId fields signal =>
      api_getProductDetail api productId fields signal
  | OpQueryProducts options => api_queryProducts api options
  end.

(** A base URL that is absent, or a string of white space only. *)
Definition absentOrBlank (baseUrl : JsValue) : bool :=
  match baseUrl with
  | JUndefined | JNull => true
  | JStr s => forallb isWhiteSpace (list_ascii_of_string s)
  | _ => false
  end.

(** The Fetch standard's [ok]: the status is in the range 200-299. *)
Definition conforming (response : Response) : Prop :=
  resp_ok response
  = ((200 <=? resp_status response)%Z && (resp_status response <=? 299)%Z).

(** The failure every operation returns when the base URL is unusable. *)
Definition configFailure : ApiResult :=
  {| ok := false;
     data := JNull;
     meta := JNull;
     error := Some {| type := "config";
                      message := JStr "Directus baseUrl is missing or invalid.";
                      status := None;
                      code := JNull;
                      details := JNull;
                      retryable := false |} |}.

(** Every way [request] can end, for a client with the normalised base URL
    [base] and the token source [token]. *)
Inductive RequestOutcome (base : JsValue) (token : TokenSource)
  : Completion ApiResult -> Prop :=
| EndsConfig :
    toBoolean base = false -> RequestOutcome base token (Normal configFailure)
| EndsTokenAbrupt e :
    toBoolean base = true -> resolveToken token = Abrupt e ->
    RequestOutcome base token (Abrupt e)
| EndsUrlAbrupt path query e :
    toBoolean base = true ->
    buildUrl (toString base) path query = Abrupt e ->
    RequestOutcome base token (Abrupt e)
| EndsNetwork e :
    RequestOutcome base token
      (Normal (createFailureResult
                 (createApiError "network"
                    (js_or (optProp e "message")
                       (JStr "Network request failed."))
                    None JUndefined e true)))
| EndsParse response e :
    RequestOutcome base token
      (Normal (createFailureResult
                 (createApiError "parse" (JStr "Unable to parse API response.")
                    (Some (resp_status response)) JUndefined e false)))
| EndsApi response payload :
    toBoolean (js_or (optProp payload "errors") (optProp payload "error"))
    = true ->
    RequestOutcome base token
      (Normal (createFailureResult
                 (mapDirectusError payload (resp_status response))))
| EndsHttp response payload :
    RequestOutcome base token
      (Normal (createFailureResult
                 (mapHttpError (resp_status response) payload)))
| EndsSuccess payload :
    RequestOutcome base token
      (Normal {| ok := true;
                 data := fst (unwrapData payload);
                 meta := snd (unwrapData payload);
                 error := None |}).

(** [createJsonResponse({ok, status, body})] of client.test.js. *)
Definition createJsonResponse (ok : bool) (status : Z) (body : JsValue)
  : Response :=
  {| resp_ok := ok;
     resp_status := status;
     resp_headers :=
       Some (fun name =>
               if String.eqb name "content-type"
               then Some "application/json" else None);
     resp_json := Normal body;
     resp_text :=
       Normal (match stringify body with Some text => text | None => "" end) |}.

(** A transport that answers every call with the same outcome. *)
Definition always (outcome : Completion Response) : Transport :=
  fun _ _ => outcome.

(** The base URL of the test suite. *)
Definition testBaseUrl : JsValue := JStr "http://10.115.3.12:8055".

(** [new Error(text)], as far as the client looks at it. *)
Definition jsError (text : string) : JsValue := JObj [("message", JStr text)].

(** [{}] for [listProducts]. *)
Definition noListOptions : ListOptions :=
  {| filter := JUndefined; fields := JUndefined; limit := JUndefined;
     page := JUndefined; search := JUndefined; sort := JUndefined;
     list_signal := JUndefined |}.

(** The entry a structured error is read from: the first truthy one of
    [payload.errors[0]], [payload.error] and [payload.errors]. *)
Definition errorEntry (payload : JsValue) : JsValue :=
  js_or (js_or (optFirst (optProp payload "errors")) (optProp payload "error"))
        (optProp payload "errors").

(** The code of an entry: its [extensions.code] if truthy, else its [code]
    if truthy, else [null]. *)
Definition entryCode (entry : JsValue) : JsValue :=
  js_or (js_or (optProp (optProp entry "extensions") "code")
               (optProp entry "code"))
        JNull.

(** The message of an [api] failure whose entry carries none. *)
Definition genericApiMessage (status : Z) : JsValue :=
  JStr ("Directus API request failed with status "
        ++ numberToString (num status) ++ ".").

(** A payload that is a plain object with a [data] key. *)
Definition hasDataKey (payload : JsValue) : bool :=
  match payload with
  | JObj props => hasProperty "data" props
  | _ => false
  end.

(** The status is in the success range. *)
Definition is2xx (status : Z) : Prop := (200 <= status <= 299)%Z.

(** An answer that announces JSON and whose body does not decode. *)
Definition brokenJsonResponse (status : Z) : Response :=
  {| resp_ok := ((200 <=? status)%Z && (status <=? 299)%Z);
     resp_status := status;
     resp_headers :=
       Some (fun name =>
               if String.eqb name "content-type"
               then Some "application/json" else None);
     resp_json := Abrupt (jsError "Unexpected token < in JSON at position 0");
     resp_text := Normal "<html>Service Unavailable</html>" |}.

(** An answer of another content type with the given body text. *)
Definition textResponse (status : Z) (text : string) : Response :=
  {| resp_ok := ((200 <=? status)%Z && (status <=? 299)%Z);
     resp_status := status;
     resp_headers :=
       Some (fun name =>
               if String.eqb name "content-type"
               then Some "text/plain" else None);
     resp_json := Abrupt (jsError "Unexpected token");
     resp_text := Normal text |}.

(** The error of a returned failure, if the run returned one. *)
Definition failureOf (run : Completion ApiResult * list FetchCall)
  : option ApiError :=
  match fst run with
  | Normal r => error r
  | Abrupt _ => None
  end.

(** A client on the test base URL, without token, whose transport always
    answers with [response]. *)
Definition stubClient (response : Response) : DirectusClient :=
  createDirectusClient testBaseUrl (TokenValue JNull)
    (always (Normal response)).

(** The error body of the test "returns consistent api error for Directus
    error payload". *)
Definition directusErrorPayload : JsValue :=
  JObj [("errors",
         JArr [JObj [("message", JStr "Invalid query");
                     ("extensions",
                      JObj [("code", JStr "FAILED_VALIDATION")])]])].

(** [{"error": ""}]. *)
Definition emptyErrorFieldPayload : JsValue := JObj [("error", JStr "")].

(** [{"data": [{"id": 1}], "meta": 0}]. *)
Definition zeroMetaPayload : JsValue :=
  JObj [("data", JArr [JObj [("id", JNum (num 1))]]); ("meta", JNum (num 0))].

(** [{"errors": []}]. *)
Definition emptyErrorsPayload : JsValue := JObj [("errors", JArr [])].

(** [{"errors": [], "error": {"message": "boom", "code": "E_BOOM"}}]. *)
Definition emptyErrorsWithErrorPayload : JsValue :=
  JObj [("errors", JArr []);
        ("error", JObj [("message", JStr "boom"); ("code", JStr "E_BOOM")])].

(** The result of a 2xx answer whose JSON body is [{"data": null}]. *)
Definition nullDataResult : ApiResult :=
  {| ok := true; data := JNull; meta := JNull; error := None |}.

End Spec.
Export Spec.

(* ------------------------------------------------------------------ *)
(** ** The TypeScript client ([frontend/swpshop/lib/directus/client.ts]),
       where its text differs from client.js *)

Module ClientTs.

(** [sanitizeBaseUrl] of client.ts: the falsy and non-string values are
    sorted out first, the trimmed text is tested by truthiness. *)
Definition sanitizeBaseUrl (baseUrl : JsValue) : JsValue :=
  if negb (toBoolean baseUrl) || negb (match baseUrl with
                                       | JStr _ => true
                                       | _ => false
                                       end)
  then JNull
  else
    let trimmed := trim (toString baseUrl) in
    if negb (String.eqb trimmed "") then JStr (stripTrailingSlashes trimmed)
    else JNull.

(** [isObject] of client.ts:
    [Boolean(value) && typeof value === "object" && !Array.isArray(value)]. *)
Definition isObject (value : JsValue) : bool :=
  toBoolean value
  && match value with JNull | JArr _ | JObj _ => true | _ => false end
  && negb (isArray value).

End ClientTs.

(* ------------------------------------------------------------------ *)
(** ** The boundary server (the Express entry point of the backend) *)

Module Server.

(** [parseCsv(value)]. *)
Definition parseCsv (value : JsValue) : JsValue :=
  match value with
  | JArr items => JStr (arrayJoin "," items)
  | JStr _ => value
  | _ => JUndefined
  end.

(** [mapErrorToStatus(error)]; [None] is a [null] or [undefined] error. *)
Definition mapErrorToStatus (error : option ApiError) : Z :=
  match error with
  | None => 502
  | Some e =>
      if String.eqb (type e) "validation" then 400
      else if String.eqb (type e) "not_found" then 404
      else if String.eqb (type e) "config" then 500
      else if String.eqb (type e) "network" then 502
      else match status e with
           | Some s => s
           | None => 502
           end
  end%Z.

(** What a handler sends: [res.status(status).json({ error })]. *)
Record ErrorReply : Type := mkErrorReply {
  reply_status : Z;
  reply_error : ApiError
}.

(** [sendError(res, error)]. *)
Definition sendError (error : option ApiError) : ErrorReply :=
  let status := mapErrorToStatus error in
  {| reply_status := status;
     reply_error :=
       {| type := match error with
                  | Some e => if String.eqb (type e) "" then "http" else type e
                  | None => "http"
                  end;
          message := js_or (match error with
                            | Some e => message e
                            | None => JUndefined
                            end) (JStr "Request failed.");
          status := Some status;
          code := js_or (match error with
                         | Some e => code e
                         | None => JUndefined
                         end) JNull;
          details := js_or (match error with
                            | Some e => details e
                            | None => JUndefined
                            end) JNull;
          retryable := match error with
                       | Some e => retryable e
                       | None => false
                       end |} |}.




Section Assets.

(** [process.env.DIRECTUS_URL || ""]. *)
Variable directusUrl : string.




End Assets.

End Server.

(* ------------------------------------------------------------------ *)
(** ** Notions used to state the remaining properties *)

Module Shape.

(** Own-property lookup in an entry list, whatever the values are. *)
Fixpoint lookupEntry {A : Type} (name : string) (props : list (string * A))
  : option A :=
  match props with
  | [] => None
  | (k, v) :: rest =>
      if String.eqb k name then Some v else lookupEntry name rest
  end.



(** The characters an escaped query name or value is made of. *)
Definition isFormChar (c : ascii) : bool :=
  isAlphaNum c || isOneOf "*-._+%" c.

(** The characters of a serialised query: escaped text and the two
    separators. *)
Definition isQueryChar (c : ascii) : bool :=
  isFormChar c || Ascii.eqb c "&"%char || Ascii.eqb c "="%char.

Definition allChars (p : ascii -> bool) (s : string) : bool :=
  forallb p (list_ascii_of_string s).

(** [l] keeps some of the elements of [reference], in the same order. *)
Fixpoint isSubsequence (l reference : list string) : bool :=
  match l, reference with
  | [], _ => true
  | _ :: _, [] => false
  | x :: l', y :: reference' =>
      if String.eqb x y then isSubsequence l' reference'
      else isSubsequence l reference'
  end.

(** The query keys [buildProductsQuery] can produce, in its order. *)
Definition productQueryKeys : list string :=
  ["filter"; "fields"; "sort"; "limit"; "page"; "search"].



End Shape.
Export Shape.

(* ================================================================== *)
(** * Properties *)

(* ------------------------------------------------------------------ *)
(** ** [String] of numbers *)

Module NumberFacts.

(** Integers are printed digit by digit below 10^21 and in exponent
    notation from there on; beyond 2^53 the digits are the shortest ones
    that identify the number. *)
Example numberToString_integers :
  map (fun z => numberToString (num z))
    [0; 7; -42; 9007199254740993; 2 ^ 64; 10 ^ 20; 10 ^ 21;
     123456789 * 10 ^ 21]%Z
  = ["0"; "7"; "-42"; "9007199254740992"; "18446744073709552000";
     "100000000000000000000"; "1e+21"; "1.23456789e+29"].
Proof. vm_compute. reflexivity. Qed.

(** Fractions: [0.1], [1.5], [0.000001], [1e-7], the largest and the
    smallest positive number, and the numbers that are not finite. *)
Example numberToString_fractions :
  map numberToString
    [S754_finite false 7205759403792794 (-56);
     S754_finite false 6755399441055744 (-52);
     S754_finite false 4722366482869645 (-72);
     S754_finite false 7555786372591432 (-76);
     S754_finite false 9007199254740991 971;
     S754_finite true 1 (-1074);
     S754_zero true; S754_nan; S754_infinity true]
  = ["0.1"; "1.5"; "0.000001"; "1e-7"; "1.7976931348623157e+308";
     "-5e-324"; "0"; "NaN"; "-Infinity"].
Proof. vm_compute. reflexivity. Qed.

End NumberFacts.

(* ------------------------------------------------------------------ *)
(** ** What escaped text is made of, and what it stands for *)

Module EscapeFacts.

Lemma allChars_app (p : ascii -> bool) (a b : string) :
  allChars p (a ++ b) = allChars p a && allChars p b.
Proof.
  unfold allChars. induction a as [| c a IH]; simpl; [reflexivity |].
  now rewrite IH, andb_assoc.
Qed.

Lemma allChars_weaken (p q : ascii -> bool) (s : string) :
  (forall c, p c = true -> q c = true) ->
  allChars p s = true -> allChars q s = true.
Proof.
  intros Hpq. unfold allChars.
  induction (list_ascii_of_string s) as [| c l IH]; simpl; [reflexivity |].
  intros Hall. apply andb_true_iff in Hall as [Hc Hl].
  now rewrite (Hpq c Hc), IH.
Qed.


Lemma form_char_escaped (c : ascii) :
  allChars isFormChar
    (if Ascii.eqb c " "%char then "+"
     else percentEncodeChar (fun c => isAlphaNum c || isOneOf "*-._" c) c)
  = true.
Proof. destruct c as [[] [] [] [] [] [] [] []]; vm_compute; reflexivity. Qed.


Lemma formUrlEncode_chars (s : string) :
  allChars isFormChar (formUrlEncode s) = true.
Proof.
  induction s as [| c rest IH]; simpl; [reflexivity |].
  rewrite allChars_app, IH, andb_true_r. exact (form_char_escaped c).
Qed.

(** Decoding undoes the escape of one character. *)
Lemma percentDecode_form_char (c : ascii) (rest : string) :
  percentDecode true
    ((if Ascii.eqb c " "%char then "+"
      else percentEncodeChar (fun c => isAlphaNum c || isOneOf "*-._" c) c)
     ++ rest)
  = (utf8Bytes c ++ percentDecode true rest)%list.
Proof. destruct c as [[] [] [] [] [] [] [] []]; reflexivity. Qed.


Lemma utf8Decode_char (c : ascii) (bytes : list nat) :
  utf8Decode (utf8Bytes c ++ bytes) = option_map (String c) (utf8Decode bytes).
Proof. destruct c as [[] [] [] [] [] [] [] []]; reflexivity. Qed.

Lemma formUrlDecode_encode (s : string) :
  formUrlDecode (formUrlEncode s) = Some s.
Proof.
  unfold formUrlDecode. induction s as [| c rest IH]; [reflexivity |].
  simpl formUrlEncode.
  now rewrite percentDecode_form_char, utf8Decode_char, IH.
Qed.


Lemma splitOn_last (sep : ascii) (a : string) :
  allChars (fun c => negb (Ascii.eqb c sep)) a = true -> splitOn sep a = [a].
Proof.
  unfold allChars. induction a as [| c a IH]; simpl; [reflexivity |].
  intros Hall. apply andb_true_iff in Hall as [Hc Ha].
  apply negb_true_iff in Hc. now rewrite Hc, (IH Ha).
Qed.

Lemma splitOn_piece (sep : ascii) (a rest : string) :
  allChars (fun c => negb (Ascii.eqb c sep)) a = true ->
  splitOn sep (a ++ String sep rest) = a :: splitOn sep rest.
Proof.
  unfold allChars. induction a as [| c a IH]; simpl.
  - intros _. now rewrite Ascii.eqb_refl.
  - intros Hall. apply andb_true_iff in Hall as [Hc Ha].
    apply negb_true_iff in Hc. now rewrite Hc, (IH Ha).
Qed.

Lemma splitFirst_piece (sep : ascii) (a b : string) :
  allChars (fun c => negb (Ascii.eqb c sep)) a = true ->
  splitFirst sep (a ++ String sep b) = (a, b).
Proof.
  unfold allChars. induction a as [| c a IH]; simpl.
  - intros _. now rewrite Ascii.eqb_refl.
  - intros Hall. apply andb_true_iff in Hall as [Hc Ha].
    apply negb_true_iff in Hc. now rewrite Hc, (IH Ha).
Qed.

Lemma formUrlEncode_no (sep : ascii) (s : string) :
  isFormChar sep = false ->
  allChars (fun c => negb (Ascii.eqb c sep)) (formUrlEncode s) = true.
Proof.
  intros Hsep. apply (allChars_weaken isFormChar);
    [| apply formUrlEncode_chars].
  intros c Hc. apply negb_true_iff. apply Ascii.eqb_neq.
  intros ->. congruence.
Qed.

Lemma parseParameter_pair (nv : string * string) :
  parseParameter (formUrlEncode (fst nv) ++ "=" ++ formUrlEncode (snd nv))
  = Some nv.
Proof.
  unfold parseParameter.
  change (formUrlEncode (fst nv) ++ "=" ++ formUrlEncode (snd nv))
    with (formUrlEncode (fst nv) ++ String "="%char (formUrlEncode (snd nv))).
  rewrite splitFirst_piece by now apply formUrlEncode_no.
  rewrite !formUrlDecode_encode. now destruct nv.
Qed.

Lemma pair_no_ampersand (nv : string * string) :
  allChars (fun c => negb (Ascii.eqb c "&"%char))
    (formUrlEncode (fst nv) ++ "=" ++ formUrlEncode (snd nv)) = true.
Proof.
  rewrite !allChars_app, !formUrlEncode_no by reflexivity. reflexivity.
Qed.

Lemma pair_chars (nv : string * string) :
  allChars isQueryChar (formUrlEncode (fst nv) ++ "=" ++ formUrlEncode (snd nv))
  = true.
Proof.
  assert (Hform : forall s, allChars isQueryChar (formUrlEncode s) = true).
  { intros s. apply (allChars_weaken isFormChar); [| apply formUrlEncode_chars].
    intros c Hc. unfold isQueryChar. now rewrite Hc. }
  now rewrite !allChars_app, !Hform.
Qed.

Lemma spToString_cons (nv next : string * string) (sp : SearchParams) :
  spToString (nv :: next :: sp)
  = (formUrlEncode (fst nv) ++ "=" ++ formUrlEncode (snd nv))
    ++ String "&"%char (spToString (next :: sp)).
Proof. reflexivity. Qed.

Lemma spToString_nonempty (nv : string * string) (sp : SearchParams) :
  String.eqb (spToString (nv :: sp)) "" = false.
Proof.
  unfold spToString. simpl.
  destruct (formUrlEncode (fst nv)) as [| c k];
    destruct (map _ sp); reflexivity.
Qed.

Lemma splitOn_spToString (nv : string * string) (sp : SearchParams) :
  map parseParameter (splitOn "&"%char (spToString (nv :: sp)))
  = map Some (nv :: sp).
Proof.
  revert nv. induction sp as [| next sp IH]; intros nv.
  - unfold spToString. simpl map. simpl joinStrings.
    rewrite splitOn_last by apply pair_no_ampersand.
    simpl. now rewrite parseParameter_pair.
  - rewrite spToString_cons, splitOn_piece by apply pair_no_ampersand.
    simpl map. now rewrite parseParameter_pair, IH.
Qed.

Lemma allSome_map_Some {A : Type} (l : list A) : allSome (map Some l) = Some l.
Proof. induction l as [| x l IH]; simpl; [reflexivity | now rewrite IH]. Qed.

(** Parsing a serialised parameter list gives the list back. *)
Lemma parseQuery_spToString (sp : SearchParams) :
  parseQuery (spToString sp) = Some sp.
Proof.
  destruct sp as [| nv sp]; [reflexivity |].
  unfold parseQuery. rewrite spToString_nonempty, splitOn_spToString.
  apply allSome_map_Some.
Qed.

Lemma spToString_chars (sp : SearchParams) :
  allChars isQueryChar (spToString sp) = true.
Proof.
  induction sp as [| nv sp IH]; [reflexivity |].
  destruct sp as [| next sp].
  - unfold spToString. simpl. apply pair_chars.
  - rewrite spToString_cons, allChars_app, pair_chars.
    unfold allChars in *. simpl. exact IH.
Qed.

End EscapeFacts.

(* ------------------------------------------------------------------ *)
(** ** The order of [Object.entries] *)

Module EntriesFacts.

Lemma insertByIndex_map {A B : Type} (g : string * A -> string * B)
  (index : Z) (entry : string * A) (sorted : list (Z * (string * A))) :
  insertByIndex index (g entry) (map (fun ie => (fst ie, g (snd ie))) sorted)
  = map (fun ie => (fst ie, g (snd ie))) (insertByIndex index entry sorted).
Proof.
  induction sorted as [| [i e] rest IH]; simpl; [reflexivity |].
  destruct (index <=? i)%Z; simpl; [reflexivity | now rewrite IH].
Qed.

Lemma indexedEntries_map {A B : Type} (f : string -> A -> B)
  (props : list (string * A)) :
  indexedEntries (map (fun kv => (fst kv, f (fst kv) (snd kv))) props)
  = map (fun ie => (fst ie, (fst (snd ie), f (fst (snd ie)) (snd (snd ie)))))
      (indexedEntries props).
Proof.
  induction props as [| kv rest IH]; simpl; [reflexivity |].
  destruct (arrayIndex (fst kv)); [| exact IH].
  rewrite IH.
  apply (insertByIndex_map (fun kv => (fst kv, f (fst kv) (snd kv)))).
Qed.

Lemma objectEntries_map {A B : Type} (f : string -> A -> B)
  (props : list (string * A)) :
  objectEntries (map (fun kv => (fst kv, f (fst kv) (snd kv))) props)
  = map (fun kv => (fst kv, f (fst kv) (snd kv))) (objectEntries props).
Proof.
  unfold objectEntries. rewrite indexedEntries_map, map_app, !map_map.
  f_equal.
  induction props as [| kv rest IH]; simpl; [reflexivity |].
  destruct (isArrayIndex (fst kv)); simpl; now rewrite IH.
Qed.

(** The bodies of a loop over [Object.entries] are the body on each entry,
    in that order. *)
Lemma forEachEntry_spec {A B : Type} (body : string -> A -> B)
  (props : list (string * A)) :
  forEachEntry body props
  = map (fun kv => body (fst kv) (snd kv)) (objectEntries props).
Proof.
  unfold forEachEntry. now rewrite objectEntries_map, map_map.
Qed.

Lemma insertByIndex_perm {A : Type} (index : Z) (entry : string * A)
  (sorted : list (Z * (string * A))) :
  Permutation (insertByIndex index entry sorted) ((index, entry) :: sorted).
Proof.
  induction sorted as [| [i e] rest IH]; simpl; [reflexivity |].
  destruct (index <=? i)%Z; [reflexivity |].
  rewrite IH. apply perm_swap.
Qed.

Lemma insertByIndex_sorted {A : Type} (index : Z) (entry : string * A)
  (sorted : list (Z * (string * A))) :
  Sorted Z.le (map fst sorted) ->
  Sorted Z.le (map fst (insertByIndex index entry sorted)).
Proof.
  induction sorted as [| [i e] rest IH]; simpl; intros Hsorted.
  - repeat constructor.
  - destruct (index <=? i)%Z eqn:Hle; simpl.
    + constructor; [exact Hsorted |]. constructor. now apply Z.leb_le.
    + apply Sorted_inv in Hsorted as [Hrest Hhd].
      constructor; [now apply IH |].
      apply Z.leb_gt in Hle.
      destruct rest as [| [i' e'] rest']; simpl.
      * constructor. lia.
      * destruct (index <=? i')%Z; simpl; constructor;
          [lia | now inversion Hhd].
Qed.

Lemma indexedEntries_perm {A : Type} (props : list (string * A)) :
  Permutation (map snd (indexedEntries props))
    (List.filter (fun kv => isArrayIndex (fst kv)) props).
Proof.
  induction props as [| kv rest IH]; simpl; [reflexivity |].
  unfold isArrayIndex. destruct (arrayIndex (fst kv)) as [index |];
    [| exact IH].
  rewrite (Permutation_map snd (insertByIndex_perm index kv _)).
  simpl. now constructor.
Qed.

Lemma indexedEntries_index {A : Type} (props : list (string * A)) :
  Forall (fun ikv => arrayIndex (fst (snd ikv)) = Some (fst ikv))
    (indexedEntries props).
Proof.
  induction props as [| kv rest IH]; simpl; [constructor |].
  destruct (arrayIndex (fst kv)) as [index |] eqn:Hindex; [| exact IH].
  eapply Permutation_Forall;
    [symmetry; apply insertByIndex_perm | now constructor].
Qed.

Lemma indexedEntries_sorted {A : Type} (props : list (string * A)) :
  Sorted Z.le (map fst (indexedEntries props)).
Proof.
  induction props as [| kv rest IH]; simpl; [constructor |].
  destruct (arrayIndex (fst kv)); [now apply insertByIndex_sorted | exact IH].
Qed.

(** [objectEntries] yields the order described in words. *)
Lemma objectEntries_order {A : Type} (props : list (string * A)) :
  entriesOrder props (objectEntries props).
Proof.
  exists (indexedEntries props). split; [reflexivity |].
  split; [apply indexedEntries_perm |].
  split; [apply indexedEntries_index | apply indexedEntries_sorted].
Qed.

(** Without array-index names the order is that of creation. *)
Lemma objectEntries_named {A : Type} (props : list (string * A)) :
  forallb (fun kv => negb (isArrayIndex (fst kv))) props = true ->
  objectEntries props = props.
Proof.
  unfold objectEntries, isArrayIndex.
  induction props as [| kv rest IH]; simpl; [reflexivity |].
  intros Hall. apply andb_true_iff in Hall as [Hkv Hrest].
  destruct (arrayIndex (fst kv)); [discriminate |].
  simpl. specialize (IH Hrest).
  destruct (indexedEntries rest) as [| ie more] eqn:Hindexed.
  - simpl in *. now rewrite IH.
  - exfalso.
    assert (Hin : In (snd ie) (List.filter
                                 (fun kv => isArrayIndex (fst kv)) rest)).
    { eapply Permutation_in; [apply indexedEntries_perm |].
      rewrite Hindexed. now left. }
    apply filter_In in Hin as [Hin Hidx].
    rewrite forallb_forall in Hrest. specialize (Hrest _ Hin).
    unfold isArrayIndex in Hidx. now rewrite Hidx in Hrest.
Qed.

Lemma objectEntries_In {A : Type} (props : list (string * A))
  (kv : string * A) :
  In kv (objectEntries props) -> In kv props.
Proof.
  unfold objectEntries. intros Hin. apply in_app_or in Hin as [Hin | Hin].
  - eapply Permutation_in in Hin; [| apply indexedEntries_perm].
    now apply filter_In in Hin.
  - now apply filter_In in Hin.
Qed.

Lemma objectEntries_Forall {A : Type} (P : string * A -> Prop)
  (props : list (string * A)) :
  Forall P props -> Forall P (objectEntries props).
Proof.
  rewrite !Forall_forall. intros Hall kv Hin.
  now apply Hall, objectEntries_In.
Qed.

End EntriesFacts.

(* ------------------------------------------------------------------ *)
(** ** Query serialiser *)

Module QueryFacts.

Import EscapeFacts EntriesFacts.

Lemma appendQueryParam_object (sp : SearchParams) (key : string)
  (props : list (string * JsValue)) :
  appendQueryParam sp key (JObj props)
  = appendEntries (compositeKey key) sp (objectEntries props).
Proof.
  cbn [appendQueryParam]. rewrite forEachEntry_spec. revert sp.
  induction (objectEntries props) as [| [nestedKey nestedValue] rest IH];
    intros sp; simpl; [reflexivity | apply IH].
Qed.

Lemma specParams_object (key : string) (props : list (string * JsValue)) :
  specParams key (JObj props)
  = flat_map (fun kv => specParams (key ++ "[" ++ fst kv ++ "]") (snd kv))
      (objectEntries props).
Proof.
  cbn [specParams]. rewrite forEachEntry_spec. now rewrite <- flat_map_concat_map.
Qed.

Lemma appendQueryParam_spec (value : JsValue) :
  forall (sp : SearchParams) (key : string),
    appendQueryParam sp key value = (sp ++ specParams key value)%list.
Proof.
  induction value as [| | b | x | s | items _ | props IH] using JsValue_ind;
    intros sp key;
    try (simpl; now rewrite ?app_nil_r).
  - destruct items; simpl; [now rewrite app_nil_r | reflexivity].
  - rewrite appendQueryParam_object, specParams_object.
    apply (objectEntries_Forall (fun kv => forall sp key,
             appendQueryParam sp key (snd kv)
             = (sp ++ specParams key (snd kv))%list)) in IH.
    revert sp. induction IH as [| [k v] rest Hv _ IHrest]; intros sp.
    + simpl. now rewrite app_nil_r.
    + simpl. rewrite IHrest. simpl in Hv. rewrite Hv.
      unfold compositeKey. now rewrite app_assoc.
Qed.

Lemma appendEntries_spec (mk : string -> string)
  (l : list (string * JsValue)) :
  forall sp : SearchParams,
    appendEntries mk sp l
    = (sp ++ flat_map (fun kv => specParams (mk (fst kv)) (snd kv)) l)%list.
Proof.
  induction l as [| [k v] rest IH]; intros sp; simpl.
  - now rewrite app_nil_r.
  - rewrite IH, appendQueryParam_spec. now rewrite app_assoc.
Qed.

(** On a mapping [serializeQuery] returns, and what it returns is the
    serialisation of section 4.1 of the entries [Object.entries] yields. *)
Lemma serializeQuery_refines (props : list (string * JsValue)) :
  serializeQuery (JObj props) = Normal (specSerialize (objectEntries props)).
Proof.
  unfold serializeQuery, specSerialize, specQueryParams.
  cbn [entriesOf]. unfold spToString.
  now rewrite appendEntries_spec.
Qed.

Lemma specQueryParams_app (e1 e2 : list (string * JsValue)) :
  specQueryParams (e1 ++ e2)
  = (specQueryParams e1 ++ specQueryParams e2)%list.
Proof. unfold specQueryParams. apply flat_map_app. Qed.

(** An entry that contributes no parameter can be dropped. *)
Lemma specSerialize_skip (e1 e2 : list (string * JsValue)) (key : string)
  (value : JsValue) :
  specParams key value = [] ->
  specSerialize (e1 ++ (key, value) :: e2) = specSerialize (e1 ++ e2).
Proof.
  intros Hskip. unfold specSerialize. rewrite !specQueryParams_app.
  change (specQueryParams ((key, value) :: e2))
    with (specParams key value ++ specQueryParams e2)%list.
  now rewrite Hskip.
Qed.

(** [null] has no entries to walk: [serializeQuery(null)] throws. *)
Lemma serializeQuery_null :
  exists e, serializeQuery JNull = Abrupt e.
Proof. eexists. reflexivity. Qed.

(** The serialiser test of client.test.js. *)
Example serializeQuery_directus_filter :
  serializeQuery
    (JObj [("limit", JNum (num 10));
           ("filter", JObj [("status", JObj [("_eq", JStr "published")]);
                            ("price", JObj [("_lte", JNum (num 99))])]);
           ("fields", JArr [JStr "id"; JStr "name"])])
  = Normal "limit=10&filter%5Bstatus%5D%5B_eq%5D=published&filter%5Bprice%5D%5B_lte%5D=99&fields=id%2Cname".
Proof. vm_compute. reflexivity. Qed.

(** C6, as the code has it.  On every mapping [serializeQuery] returns a
    text, never throws, and that text is what section 4.1 describes, with
    the entries taken in the order of [Object.entries]:
    - that order puts the properties named by an array index first, by
      ascending index, and then the others in insertion order; it is the
      insertion order for a mapping without such names, and it applies to
      nested mappings as well;
    - an entry whose value is [null], [undefined] or an empty array adds
      nothing; a non-empty array adds the one parameter
      [key = <elements joined by ",">]; a nested mapping adds what its
      entries add under the keys [key[nestedKey]], at any depth; any other
      value adds [key = String(value)]; the parameters of the entries
      follow one another;
    - the text is the parameters [name=value] joined by [&], names and
      values escaped by the form-urlencoded rules (letters, digits and
      [* - . _] stay, a space becomes [+], any other character the [%XY]
      escapes of its UTF-8 bytes): it consists of letters, digits,
      [* - . _ + %], [&] and [=] only, and parsing it (split at [&] and at
      the first [=], [+] read as a space, [%XY] as a byte of UTF-8) gives
      the parameters back, a joined array as one value;
    - the empty mapping and an absent one give the empty text. *)
Theorem C6_serializeQuery_contract :
  (forall props,
      serializeQuery (JObj props)
      = Normal (spToString (appendEntries (fun key => key) []
                              (objectEntries props)))
      /\ serializeQuery (JObj props)
         = Normal (specSerialize (objectEntries props)))
  /\ (forall props : list (string * JsValue),
        entriesOrder props (objectEntries props)
        /\ (forallb (fun kv => negb (isArrayIndex (fst kv))) props = true ->
            objectEntries props = props))
  /\ (forall sp key,
        appendQueryParam sp key JNull = sp
        /\ appendQueryParam sp key JUndefined = sp
        /\ appendQueryParam sp key (JArr []) = sp)
  /\ (forall sp key item items,
        appendQueryParam sp key (JArr (item :: items))
        = (sp ++ [(key, arrayJoin "," (item :: items))])%list)
  /\ (forall sp key props,
        appendQueryParam sp key (JObj props)
        = appendEntries (fun nestedKey => key ++ "[" ++ nestedKey ++ "]")
            sp (objectEntries props))
  /\ (forall sp key value,
        isNullish value = false -> isArray value = false ->
        isPlainObject value = false ->
        appendQueryParam sp key value = (sp ++ [(key, toString value)])%list)
  /\ (forall mk sp entries,
        appendEntries mk sp entries
        = (sp ++ flat_map (fun kv => specParams (mk (fst kv)) (snd kv))
                   entries)%list)
  /\ (forall props text,
        serializeQuery (JObj props) = Normal text ->
        allChars isQueryChar text = true
        /\ parseQuery text = Some (specQueryParams (objectEntries props)))
  /\ (forall name value,
        spToString [(name, value)]
        = formUrlEncode name ++ "=" ++ formUrlEncode value
        /\ allChars isFormChar (formUrlEncode value) = true
        /\ formUrlDecode (formUrlEncode value) = Some value)
  /\ (forall c rest,
        formUrlEncode (String c rest)
        = (if Ascii.eqb c " "%char then "+"
           else if isAlphaNum c || isOneOf "*-._" c then String c ""
           else String.concat "" (map percentByte (utf8Bytes c)))
          ++ formUrlEncode rest)
  /\ serializeQuery (JObj []) = Normal ""
  /\ serializeQuery JUndefined = Normal "".
Proof.
  split.
  { intros props. split; [reflexivity | apply serializeQuery_refines]. }
  split.
  { intros props. split;
      [apply objectEntries_order | apply objectEntries_named]. }
  split; [intros sp key; repeat split |].
  split; [reflexivity |].
  split; [exact appendQueryParam_object |].
  split.
  { intros sp key value Hnull Harr Hobj.
    destruct value; simpl in *; try discriminate; reflexivity. }
  split; [intros mk sp entries; apply appendEntries_spec |].
  split.
  { intros props text Hrun. rewrite serializeQuery_refines in Hrun.
    inversion Hrun; subst. unfold specSerialize.
    split; [apply spToString_chars | apply parseQuery_spToString]. }
  split.
  { intros name value. split; [reflexivity |].
    split; [apply formUrlEncode_chars | apply formUrlDecode_encode]. }
  split; [| split; reflexivity].
  intros c rest. simpl. unfold percentEncodeChar.
  now destruct (Ascii.eqb c " "%char).
Qed.

(** Witness of C6: a mapping with a number, a boolean under an
    array-index name inserted late, a nested filter, an array, a text with
    a space, an ampersand and a non-ASCII letter, and an absent value. *)
Lemma C6_serializeQuery_contract_witness :
  serializeQuery
    (JObj [("limit", JNum (num 10));
           ("filter", JObj [("price", JObj [("_lte", JNum (num 99))])]);
           ("fields", JArr [JStr "id"; JStr "name"]);
           ("search", JStr ("tea & caf" ++ String (ascii_of_nat 233) ""));
           ("page", JNull);
           ("7", JBool true)])
  = Normal "7=true&limit=10&filter%5Bprice%5D%5B_lte%5D=99&fields=id%2Cname&search=tea+%26+caf%C3%A9"
  /\ objectEntries [("limit", JNum (num 10)); ("page", JNull)]
     = [("limit", JNum (num 10)); ("page", JNull)]
  /\ appendQueryParam [] "limit" (JNum (num 10)) = [("limit", "10")].
Proof.
  destruct C6_serializeQuery_contract
    as (Hrun & Horder & _ & _ & _ & Hscalar & _).
  split; [| split].
  - rewrite (proj2 (Hrun _)). vm_compute. reflexivity.
  - apply (proj2 (Horder _)). reflexivity.
  - rewrite (Hscalar [] "limit" (JNum (num 10)) eq_refl eq_refl eq_refl).
    vm_compute. reflexivity.
Defined.

(** C6, counterexample.  The mapping built by inserting [b] and then [1]
    is serialised with [1] first: the entries are not processed in
    insertion order. *)
Lemma C6_counterexample :
  serializeQuery (JObj [("b", JNum (num 1)); ("1", JNum (num 2))])
  = Normal "1=2&b=1"
  /\ specSerialize [("b", JNum (num 1)); ("1", JNum (num 2))] = "b=1&1=2"
  /\ "1=2&b=1" <> "b=1&1=2".
Proof. repeat split; try (vm_compute; reflexivity). discriminate. Qed.

End QueryFacts.

(* ------------------------------------------------------------------ *)
(** ** Client core: one lemma per path through [request] *)

Module ClientFacts.

Lemma dropWhile_all (p : ascii -> bool) (s : string) :
  forallb p (list_ascii_of_string s) = true -> dropWhile p s = "".
Proof.
  induction s as [| c rest IH]; simpl; intros Hall.
  - reflexivity.
  - apply andb_true_iff in Hall as [Hc Hrest]. rewrite Hc. now apply IH.
Qed.

Lemma trim_blank (s : string) :
  forallb isWhiteSpace (list_ascii_of_string s) = true -> trim s = "".
Proof. intros Hall. unfold trim. now rewrite dropWhile_all. Qed.

Lemma sanitizeBaseUrl_blank (baseUrl : JsValue) :
  absentOrBlank baseUrl = true -> sanitizeBaseUrl baseUrl = JNull.
Proof.
  destruct baseUrl; simpl; try discriminate; try reflexivity.
  intros Hall. now rewrite trim_blank.
Qed.



Section Paths.

Variable base : JsValue.
Variable token : TokenSource.
Variable fetchFn : Transport.
Variable path : string.
Variable options : RequestOptions.
Variable log : list FetchCall.

(** No usable base URL: the [config] failure, and the log is untouched. *)
Lemma request_config :
  toBoolean base = false ->
  request base token fetchFn path options log = (Normal configFailure, log).
Proof. intros Hbase. unfold request. now rewrite Hbase. Qed.

Ltac in_list := simpl; repeat (first [left; reflexivity | right]).

Ltac run_request :=
  unfold request, bind, await, attempt, invoke, ret;
  repeat match goal with
         | H : _ = _ |- _ => rewrite H; cbn [negb]; cbv beta iota
         end.

(** The token provider throws or rejects: so does [request], before the
    transport is reached. *)
Lemma request_token_abrupt (e : JsValue) :
  toBoolean base = true ->
  resolveToken token = Abrupt e ->
  request base token fetchFn path options log = (Abrupt e, log).
Proof.
  intros Hbase Htok. now run_request.
Qed.

(** The query cannot be serialised: [request] throws what [buildUrl]
    throws, before the transport is reached. *)
Lemma request_url_abrupt (resolvedToken e : JsValue) :
  toBoolean base = true ->
  resolveToken token = Normal resolvedToken ->
  buildUrl (toString base) path (query options) = Abrupt e ->
  request base token fetchFn path options log = (Abrupt e, log).
Proof.
  intros Hbase Htok Hurl. now run_request.
Qed.

Section Dispatched.

Variable resolvedToken : JsValue.
Variable url : string.
Hypothesis Hbase : toBoolean base = true.
Hypothesis Htoken : resolveToken token = Normal resolvedToken.
Hypothesis Hurl : buildUrl (toString base) path (query options) = Normal url.

Local Abbreviation call := (fetchArguments url options resolvedToken).

Lemma request_network (e : JsValue) :
  fetchFn log call = Abrupt e ->
  request base token fetchFn path options log
  = (Normal (createFailureResult
               (createApiError "network"
                  (js_or (optProp e "message") (JStr "Network request failed."))
                  None JUndefined e true)),
     (log ++ [call])%list).
Proof.
  intros Hfetch. now run_request.
Qed.

Lemma request_parse (response : Response) (e : JsValue) :
  fetchFn log call = Normal response ->
  parseResponse response = Abrupt e ->
  request base token fetchFn path options log
  = (Normal (createFailureResult
               (createApiError "parse" (JStr "Unable to parse API response.")
                  (Some (resp_status response)) JUndefined e false)),
     (log ++ [call])%list).
Proof.
  intros Hfetch Hparse. now run_request.
Qed.

Lemma request_not_ok (response : Response) (payload : JsValue) :
  fetchFn log call = Normal response ->
  parseResponse response = Normal payload ->
  resp_ok response = false ->
  request base token fetchFn path options log
  = (Normal (createFailureResult
               (if toBoolean (js_or (optProp payload "errors")
                                    (optProp payload "error"))
                then mapDirectusError payload (resp_status response)
                else mapHttpError (resp_status response) payload)),
     (log ++ [call])%list).
Proof.
  intros Hfetch Hparse Hok. now run_request.
Qed.

Lemma request_ok (response : Response) (payload : JsValue) :
  fetchFn log call = Normal response ->
  parseResponse response = Normal payload ->
  resp_ok response = true ->
  request base token fetchFn path options log
  = (Normal {| ok := true;
               data := fst (unwrapData payload);
               meta := snd (unwrapData payload);
               error := None |},
     (log ++ [call])%list).
Proof.
  intros Hfetch Hparse Hok. run_request.
  now destruct (unwrapData payload).
Qed.

(** Once the base URL is usable, the token resolved and the URL built,
    [request] calls the transport exactly once and returns a result. *)
Lemma request_dispatches :
  exists r,
    request base token fetchFn path options log
    = (Normal r, (log ++ [call])%list).
Proof.
  destruct (fetchFn log call) as [response | e] eqn:Hfetch.
  2: { eexists. exact (request_network e Hfetch). }
  destruct (parseResponse response) as [payload | e] eqn:Hparse.
  2: { eexists. exact (request_parse response e Hfetch Hparse). }
  destruct (resp_ok response) eqn:Hok; eexists.
  - exact (request_ok response payload Hfetch Hparse Hok).
  - exact (request_not_ok response payload Hfetch Hparse Hok).
Qed.

End Dispatched.

Lemma request_outcome :
  RequestOutcome base token
    (fst (request base token fetchFn path options log)).
Proof.
  destruct (toBoolean base) eqn:Hbase.
  2: { rewrite request_config by assumption. now constructor. }
  destruct (resolveToken token) as [tok | e] eqn:Htok.
  2: { rewrite (request_token_abrupt e) by assumption. now constructor. }
  destruct (buildUrl (toString base) path (query options)) as [url | e]
    eqn:Hurl.
  2: { rewrite (request_url_abrupt tok e) by assumption.
       now apply (EndsUrlAbrupt base token path (query options)). }
  destruct (fetchFn log (fetchArguments url options tok))
    as [response | e] eqn:Hfetch.
  2: { rewrite (request_network tok url Hbase Htok Hurl e Hfetch).
       constructor. }
  destruct (parseResponse response) as [payload | e] eqn:Hparse.
  2: { rewrite (request_parse tok url Hbase Htok Hurl response e Hfetch Hparse).
       constructor. }
  destruct (resp_ok response) eqn:Hok.
  - rewrite (request_ok tok url Hbase Htok Hurl response payload
               Hfetch Hparse Hok).
    constructor.
  - rewrite (request_not_ok tok url Hbase Htok Hurl response payload
               Hfetch Hparse Hok).
    destruct (toBoolean (js_or (optProp payload "errors")
                               (optProp payload "error"))) eqn:Hshape.
    + now constructor.
    + constructor.
Qed.

(** The five kinds of failure the core produces, all members of
    [ApiErrorType]; the flag [retryable] in each of them. *)
Lemma request_failure_kinds (r : ApiResult) (e : ApiError) :
  fst (request base token fetchFn path options log) = Normal r ->
  error r = Some e ->
  In (type e) ["config"; "network"; "parse"; "api"; "http"]
  /\ In (type e) ApiErrorType
  /\ retryable e
     = (String.eqb (type e) "network"
        || (String.eqb (type e) "api" || String.eqb (type e) "http")
           && match status e with
              | Some s => (500 <=? s)%Z
              | None => false
              end).
Proof.
  intros Hrun Herr. pose proof request_outcome as Hout.
  rewrite Hrun in Hout.
  inversion Hout; subst; simpl in Herr; inversion Herr; subst;
    (split; [in_list | split; [in_list | reflexivity]]).
Qed.

Lemma request_consistent (r : ApiResult) :
  fst (request base token fetchFn path options log) = Normal r ->
  envelopeConsistent r.
Proof.
  intros Hrun. pose proof request_outcome as Hout. rewrite Hrun in Hout.
  inversion Hout; subst;
    solve [ left; split; reflexivity
          | right; repeat split; simpl; discriminate ].
Qed.

End Paths.

End ClientFacts.

(* ------------------------------------------------------------------ *)
(** ** Configuration short-circuit, envelope, escaping exceptions *)

Module EnvelopeFacts.

Import ClientFacts.

(** C5.  A client built with an absent or blank base URL answers
    [request], every verb helper and [graphql] with the [config] failure
    ([ok] false, error type ["config"]) and leaves the transport log as
    it was: the transport is not invoked. *)
Theorem C5_config_short_circuit (baseUrl : JsValue) (token : TokenSource)
  (fetchFn : Transport) (log : list FetchCall) :
  absentOrBlank baseUrl = true ->
  let client := createDirectusClient baseUrl token fetchFn in
  (forall path options,
      client_request client path options log = (Normal configFailure, log)
      /\ invocations (client_request client path options) log = 0%nat)
  /\ (forall path options,
        client_get client path options log = (Normal configFailure, log))
  /\ (forall path body options,
        client_post client path body options log
        = (Normal configFailure, log))
  /\ (forall path body options,
        client_patch client path body options log
        = (Normal configFailure, log))
  /\ (forall path options,
        client_delete client path options log = (Normal configFailure, log))
  /\ (forall query variables operationName signal,
        client_graphql client query variables operationName signal log
        = (Normal configFailure, log))
  /\ ok configFailure = false
  /\ option_map type (error configFailure) = Some "config".
Proof.
  intros Hblank client.
  assert (Hbase : toBoolean (sanitizeBaseUrl baseUrl) = false)
    by now rewrite sanitizeBaseUrl_blank.
  repeat split; intros; simpl;
    unfold get, post, patch, delete, graphql, invocations;
    rewrite ?request_config by assumption; simpl; try reflexivity.
  apply Nat.sub_diag.
Qed.

(** Witness of C5: a base URL of blanks and a tab, and a transport that
    would answer. *)
Lemma C5_config_short_circuit_witness :
  client_get
    (createDirectusClient (JStr (String (ascii_of_nat 9) "  "))
       (TokenValue (JStr "token-123"))
       (always (Normal (createJsonResponse true 200
                          (JObj [("data", JArr [])])))))
    "/items/Products" noOptions []
  = (Normal configFailure, []).
Proof.
  apply (C5_config_short_circuit (JStr (String (ascii_of_nat 9) "  "))).
  reflexivity.
Defined.

(** The test "returns config error when base URL is missing". *)
Example config_error_when_base_url_missing :
  fst (client_get
         (createDirectusClient JUndefined (TokenValue JNull)
            (always (Normal (createJsonResponse true 200
                               (JObj [("data", JArr [])])))))
         "/items/Products" noOptions [])
  = Normal configFailure.
Proof. reflexivity. Qed.

(** C2, where the code departs from it.  With a usable base URL and a
    token provider that throws (or whose promise rejects) with [e],
    [request], every verb helper and [graphql] complete abruptly with [e]:
    no result value is returned, the exception reaches the caller, and the
    transport is not reached. *)
Theorem C2_token_provider_failure_escapes (baseUrl : JsValue)
  (provider : unit -> Completion JsValue) (fetchFn : Transport)
  (log : list FetchCall) (e : JsValue) :
  toBoolean (sanitizeBaseUrl baseUrl) = true ->
  provider tt = Abrupt e ->
  let client := createDirectusClient baseUrl (TokenProvider provider) fetchFn in
  (forall path options,
      client_request client path options log = (Abrupt e, log))
  /\ (forall path options,
        client_get client path options log = (Abrupt e, log))
  /\ (forall path body options,
        client_post client path body options log = (Abrupt e, log))
  /\ (forall path body options,
        client_patch client path body options log = (Abrupt e, log))
  /\ (forall path options,
        client_delete client path options log = (Abrupt e, log))
  /\ (forall query variables operationName signal,
        client_graphql client query variables operationName signal log
        = (Abrupt e, log)).
Proof.
  intros Hbase Hthrow client.
  assert (Htoken : resolveToken (TokenProvider provider) = Abrupt e)
    by exact Hthrow.
  repeat split; intros; simpl;
    unfold get, post, patch, delete, graphql;
    now apply request_token_abrupt.
Qed.

(** The failing input of C2: the test base URL, a provider that throws,
    and a transport that would answer. *)
Lemma C2_token_provider_failure_escapes_witness :
  client_request
    (createDirectusClient testBaseUrl
       (TokenProvider (fun _ => Abrupt (jsError "token unavailable")))
       (always (Normal (createJsonResponse true 200
                          (JObj [("data", JArr [])])))))
    "/items/Products" noOptions []
  = (Abrupt (jsError "token unavailable"), []).
Proof.
  apply (C2_token_provider_failure_escapes testBaseUrl
           (fun _ => Abrupt (jsError "token unavailable"))
           (always (Normal (createJsonResponse true 200
                              (JObj [("data", JArr [])]))))
           [] (jsError "token unavailable") eq_refl eq_refl).
Defined.

(** C1, counterexample.  A 200 answer with the JSON body [{"data": null}]
    makes [get] return [ok: true] together with [data: null] and
    [error: null]: neither [data] nor [error] is non-null. *)
Lemma C1_counterexample :
  fst (perform
         (createDirectusClient testBaseUrl (TokenValue JNull)
            (always (Normal (createJsonResponse true 200
                               (JObj [("data", JNull)])))))
         "Products" (OpGet "/items/Products/7" noOptions) [])
  = Normal nullDataResult
  /\ ~ envelopeExclusive nullDataResult.
Proof.
  split; [reflexivity |].
  intros [(_ & Hdata & _) | (Hok & _)]; discriminate.
Qed.

Lemma listProducts_consistent (client : DirectusClient) (collection : string)
  (options : ListOptions) (log log' : list FetchCall) (r : ApiResult) :
  (forall path opts l l' r',
      client_get client path opts l = (Normal r', l') ->
      envelopeConsistent r') ->
  listProducts client collection options log = (Normal r, log') ->
  envelopeConsistent r /\ (ok r = true -> isArray (data r) = true).
Proof.
  intros Hget. unfold listProducts, bind.
  destruct (client_get client _ _ log) as [[result | e] l] eqn:Hrun;
    [| discriminate].
  specialize (Hget _ _ _ _ _ Hrun).
  destruct (ok result) eqn:Hok; simpl; unfold ret; intros Heq;
    inversion Heq; subst.
  - split; [left; split; reflexivity |]. intros _. simpl.
    now destruct (data result).
  - split; [assumption |]. intros Hok'. congruence.
Qed.

(** C1, as the code has it.  Whatever the base URL, the token source, the
    transport and the log, a result [r] returned by [request], a verb
    helper, [graphql], [listProducts], [getProductDetail] or
    [queryProducts] is consistent: either [ok] is true and [error] is null,
    or [ok] is false, [data] and [meta] are null and [error] is not.  A
    successful [listProducts] or [queryProducts] result moreover carries an
    array, hence non-null data. *)
Theorem C1_envelope_consistent (baseUrl : JsValue) (token : TokenSource)
  (fetchFn : Transport) (collection : string) (op : Operation)
  (log log' : list FetchCall) (r : ApiResult) :
  perform (createDirectusClient baseUrl token fetchFn) collection op log
  = (Normal r, log') ->
  envelopeConsistent r
  /\ (isListOperation op = true -> ok r = true -> isArray (data r) = true).
Proof.
  assert (Hreq : forall path opts l l' r',
             request (sanitizeBaseUrl baseUrl) token fetchFn path opts l
             = (Normal r', l') -> envelopeConsistent r').
  { intros path opts l l' r' Hrun.
    apply (request_consistent (sanitizeBaseUrl baseUrl) token fetchFn
             path opts l).
    now rewrite Hrun. }
  destruct op; simpl; unfold get, post, patch, delete, graphql, queryProducts;
    intros Hrun;
    try (split; [now apply Hreq in Hrun | discriminate]).
  - destruct (listProducts_consistent
                (createDirectusClient baseUrl token fetchFn) _ _ _ _ _
                (fun p o l l' r' => Hreq p (withMethod "GET" o) l l' r') Hrun)
      as [Hc Ha].
    split; [assumption | intros _; exact Ha].
  - split; [| discriminate].
    unfold getProductDetail in Hrun.
    destruct (isMissingId productId).
    + inversion Hrun; subst. right. repeat split. discriminate.
    + now apply Hreq in Hrun.
  - destruct (listProducts_consistent
                (createDirectusClient baseUrl token fetchFn) _ _ _ _ _
                (fun p o l l' r' => Hreq p (withMethod "GET" o) l l' r') Hrun)
      as [Hc Ha].
    split; [assumption | intros _; exact Ha].
Qed.

(** Witness of C1: the list test of client.test.js. *)
Lemma C1_envelope_consistent_witness :
  envelopeConsistent
    {| ok := true;
       data := JArr [JObj [("id", JNum (num 1)); ("title", JStr "Coffee")]];
       meta := JObj [("filter_count", JNum (num 1))];
       error := None |}.
Proof.
  refine (proj1 (C1_envelope_consistent testBaseUrl
                   (TokenValue (JStr "token-123"))
                   (always (Normal (createJsonResponse true 200
                      (JObj [("data",
                              JArr [JObj [("id", JNum (num 1));
                                          ("title", JStr "Coffee")]]);
                             ("meta", JObj [("filter_count", JNum (num 1))])]))))
                   "Products" (OpListProducts noListOptions) [] _ _ _)).
  vm_compute. reflexivity.
Defined.

End EnvelopeFacts.


(* ------------------------------------------------------------------ *)
(** ** Classification of failures and unwrapping of successes *)

Module ClassificationFacts.

Import ClientFacts.

Lemma js_or_truthy (a b : JsValue) : toBoolean a = true -> js_or a b = a.
Proof. unfold js_or. now intros ->. Qed.

Lemma js_or_falsy (a b : JsValue) : toBoolean a = false -> js_or a b = b.
Proof. unfold js_or. now intros ->. Qed.

Lemma orDefault_truthy (v : JsValue) :
  toBoolean v = true -> orDefault JNull v = v.
Proof. now destruct v. Qed.

Lemma orDefault_or_null (v : JsValue) :
  orDefault JNull (js_or v JNull) = js_or v JNull.
Proof. unfold js_or. destruct (toBoolean v) eqn:Hv; now destruct v. Qed.

(** A truthy [errors] or [error] makes the entry truthy. *)
Lemma errorEntry_truthy (payload : JsValue) :
  toBoolean (js_or (optProp payload "errors") (optProp payload "error")) = true ->
  toBoolean (errorEntry payload) = true.
Proof.
  unfold errorEntry, js_or.
  destruct (toBoolean (optFirst (optProp payload "errors"))) eqn:Hfirst.
  - now rewrite Hfirst.
  - destruct (toBoolean (optProp payload "error")) eqn:Herror.
    + now rewrite Herror.
    + destruct (toBoolean (optProp payload "errors")) eqn:Herrors;
        intros H; congruence.
Qed.

(** A code can only be read off a truthy entry. *)
Lemma code_needs_entry (entry : JsValue) :
  toBoolean (optProp (optProp entry "extensions") "code") = true ->
  toBoolean entry = true.
Proof.
  destruct entry as [| | [|] | n | s | |]; simpl; try discriminate; auto.
Qed.

Lemma mapDirectusError_shape (payload : JsValue) (status : Z) :
  toBoolean (js_or (optProp payload "errors") (optProp payload "error")) = true ->
  mapDirectusError payload status
  = {| type := "api";
       message := js_or (optProp (errorEntry payload) "message")
                    (genericApiMessage status);
       status := Some status;
       code := entryCode (errorEntry payload);
       details := errorEntry payload;
       retryable := (500 <=? status)%Z |}.
Proof.
  intros Hshape. apply errorEntry_truthy in Hshape.
  unfold mapDirectusError, createApiError. fold (errorEntry payload).
  assert (Hentry : js_or (errorEntry payload) payload = errorEntry payload)
    by (unfold js_or at 1; now rewrite Hshape).
  rewrite Hentry. fold (entryCode (errorEntry payload)).
  unfold entryCode at 1. rewrite orDefault_or_null.
  now rewrite (orDefault_truthy _ Hshape).
Qed.

(** For a response that follows the Fetch standard, [ok] tells whether
    the status is in the range 200-299. *)
Lemma conforming_ok (response : Response) :
  conforming response ->
  (resp_ok response = true <-> is2xx (resp_status response)).
Proof.
  unfold conforming, is2xx. intros ->.
  rewrite andb_true_iff, !Z.leb_le. tauto.
Qed.

Lemma conforming_not_ok (response : Response) :
  conforming response ->
  (resp_ok response = false <-> ~ is2xx (resp_status response)).
Proof.
  intros Hconf. rewrite <- (conforming_ok response Hconf).
  now destruct (resp_ok response).
Qed.

Section Reached.

Variable baseUrl : JsValue.
Variable token : TokenSource.
Variable fetchFn : Transport.
Variable path : string.
Variable options : RequestOptions.
Variable log : list FetchCall.
Variable resolvedToken : JsValue.
Variable url : string.

(** The base URL is usable, the token resolved and the URL built: the
    transport is called. *)
Hypothesis Hbase : toBoolean (sanitizeBaseUrl baseUrl) = true.
Hypothesis Htoken : resolveToken token = Normal resolvedToken.
Hypothesis Hurl :
  buildUrl (toString (sanitizeBaseUrl baseUrl)) path (query options)
  = Normal url.

Local Abbreviation call := (fetchArguments url options resolvedToken).
Local Abbreviation outcome :=
  (client_request (createDirectusClient baseUrl token fetchFn) path options
     log).

(** C3, as the code has it.  For a request that reaches the transport
    (usable base URL, token resolved, URL built):
    - a transport call that throws or rejects gives a [network] failure
      with [retryable] true;
    - an answer whose [ok] flag is false and whose parsed payload has a
      truthy [errors] or [error] gives an [api] failure with the answer's
      status, whose code is read from the error entry ([extensions.code],
      else [code], else null): when [errors] is an array whose first entry
      has a truthy [extensions.code], the code is that one;
    - an answer whose [ok] flag is false and whose payload's [errors] and
      [error] are both absent or falsy gives an [http] failure with the
      answer's status;
    - an answer whose [ok] flag is true, whose [content-type] header is
      absent or does not contain the text [application/json], and whose
      body text is read, is a success whose data is [{raw: text}], or [{}]
      for an empty text;
    - the flag [ok] alone decides between failure and success; for an
      answer that follows the Fetch standard it is false exactly when the
      status is outside 200-299. *)
Theorem C3_error_classification :
  (forall e,
      fetchFn log call = Abrupt e ->
      exists err,
        outcome = (Normal (createFailureResult err), (log ++ [call])%list)
        /\ type err = "network" /\ retryable err = true)
  /\ (forall response payload,
        fetchFn log call = Normal response ->
        parseResponse response = Normal payload ->
        resp_ok response = false ->
        (toBoolean (js_or (optProp payload "errors") (optProp payload "error"))
         = true ->
         exists err,
           outcome = (Normal (createFailureResult err), (log ++ [call])%list)
           /\ type err = "api"
           /\ status err = Some (resp_status response)
           /\ code err = entryCode (errorEntry payload)
           /\ (forall first rest,
                  optProp payload "errors" = JArr (first :: rest) ->
                  toBoolean (optProp (optProp first "extensions") "code")
                  = true ->
                  code err = optProp (optProp first "extensions") "code"))
        /\ (toBoolean (js_or (optProp payload "errors")
                             (optProp payload "error")) = false ->
            exists err,
              outcome
              = (Normal (createFailureResult err), (log ++ [call])%list)
              /\ type err = "http"
              /\ status err = Some (resp_status response)))
  /\ (forall response text,
        fetchFn log call = Normal response ->
        resp_ok response = true ->
        includes "application/json" (contentTypeOf response) = false ->
        resp_text response = Normal text ->
        outcome
        = (Normal {| ok := true;
                     data := if String.eqb text "" then JObj []
                             else JObj [("raw", JStr text)];
                     meta := JNull;
                     error := None |},
           (log ++ [call])%list))
  /\ (forall response,
        conforming response ->
        (resp_ok response = false <-> ~ is2xx (resp_status response))).
Proof.
  split; [| split; [| split; [| exact conforming_not_ok]]].
  - intros e Hfetch. eexists. split.
    + exact (request_network _ _ _ _ _ _ _ _ Hbase Htoken Hurl e Hfetch).
    + split; reflexivity.
  - intros response payload Hfetch Hparse Hok.
    pose proof (request_not_ok _ _ _ _ _ _ _ _ Hbase Htoken Hurl response
                  payload Hfetch Hparse Hok) as Hrun.
    split; intros Hshape; simpl; rewrite Hrun, Hshape.
    + rewrite (mapDirectusError_shape _ _ Hshape).
      eexists. split; [reflexivity |]. repeat split.
      intros first rest Herrors Hcode. simpl.
      assert (Hentry : errorEntry payload = first).
      { pose proof (code_needs_entry _ Hcode) as Hfirst.
        unfold errorEntry. rewrite Herrors. simpl optFirst.
        unfold js_or. rewrite Hfirst. cbv iota. now rewrite Hfirst. }
      rewrite Hentry. unfold entryCode.
      rewrite (js_or_truthy _ (optProp first "code") Hcode).
      now apply js_or_truthy.
    + eexists. split; [reflexivity |]. split; reflexivity.
  - intros response text Hfetch Hok Hjson Htext.
    assert (Hparse : parseResponse response
                     = Normal (if negb (String.eqb text "")
                               then JObj [("raw", JStr text)] else JObj []))
      by (unfold parseResponse; now rewrite Hjson, Htext).
    simpl.
    rewrite (request_ok _ _ _ _ _ _ _ _ Hbase Htoken Hurl response _
               Hfetch Hparse Hok).
    now destruct (String.eqb text "").
Qed.

(** C4, as the code has it.  For an answer whose [ok] flag is true and
    whose body parsed to [payload]: if [payload] is a plain object with a
    [data] key the result is [{ok: true, data: payload.data,
    meta: payload.meta || null, error: null}], so a truthy [meta] is kept
    and a falsy one ([undefined], [null], [0], [NaN], the empty string,
    [false]) becomes [null]; otherwise the whole payload is the data and
    [meta] is [null].  For an answer that follows the Fetch standard the
    flag [ok] is true exactly when the status is in 200-299. *)
Theorem C4_success_unwrapping (response : Response) (payload : JsValue) :
  fetchFn log call = Normal response ->
  parseResponse response = Normal payload ->
  resp_ok response = true ->
  (hasDataKey payload = true ->
   outcome
   = (Normal {| ok := true;
                data := getProp payload "data";
                meta := if toBoolean (getProp payload "meta")
                        then getProp payload "meta" else JNull;
                error := None |},
      (log ++ [call])%list))
  /\ (hasDataKey payload = false ->
      outcome
      = (Normal {| ok := true; data := payload; meta := JNull;
                   error := None |},
         (log ++ [call])%list))
  /\ (conforming response -> is2xx (resp_status response)).
Proof.
  intros Hfetch Hparse Hok. simpl.
  rewrite (request_ok _ _ _ _ _ _ _ _ Hbase Htoken Hurl response payload
             Hfetch Hparse Hok).
  split; [| split];
    [| | intros Hconf; now apply (conforming_ok response Hconf)];
    intros Hkey; destruct payload; simpl in Hkey; try discriminate;
    simpl; rewrite ?Hkey; reflexivity.
Qed.

(** C10, as the code has it.  For an answer whose [ok] flag is false (for
    an answer that follows the Fetch standard: whose status is outside
    200-299) and whose payload has a truthy [errors] without a truthy first
    entry, the failure is of type [api], never [http]; its details are the
    first truthy one of [payload.error] and [payload.errors], and its
    message and code are read from there.  When [payload.error] is absent
    or falsy and [errors] is an array, such as the empty one, the message
    is the generic "request failed with status N" and the code is null. *)
Theorem C10_errors_without_first_entry (response : Response)
  (payload : JsValue) :
  fetchFn log call = Normal response ->
  parseResponse response = Normal payload ->
  resp_ok response = false ->
  toBoolean (optProp payload "errors") = true ->
  toBoolean (optFirst (optProp payload "errors")) = false ->
  exists err,
    outcome = (Normal (createFailureResult err), (log ++ [call])%list)
    /\ type err = "api"
    /\ status err = Some (resp_status response)
    /\ details err
       = js_or (optProp payload "error") (optProp payload "errors")
    /\ message err
       = js_or (optProp (details err) "message")
           (genericApiMessage (resp_status response))
    /\ code err = entryCode (details err)
    /\ (toBoolean (optProp payload "error") = false ->
        isArray (optProp payload "errors") = true ->
        message err = genericApiMessage (resp_status response)
        /\ code err = JNull)
    /\ (conforming response -> ~ is2xx (resp_status response)).
Proof.
  intros Hfetch Hparse Hok Herrors Hfirst.
  assert (Hshape : toBoolean (js_or (optProp payload "errors")
                                    (optProp payload "error")) = true)
    by (unfold js_or; now rewrite Herrors).
  pose proof (request_not_ok _ _ _ _ _ _ _ _ Hbase Htoken Hurl response
                payload Hfetch Hparse Hok) as Hrun.
  simpl. rewrite Hrun, Hshape, (mapDirectusError_shape _ _ Hshape).
  assert (Hentry : errorEntry payload
                   = js_or (optProp payload "error") (optProp payload "errors")).
  { unfold errorEntry. unfold js_or at 2. now rewrite Hfirst. }
  rewrite Hentry.
  eexists. split; [reflexivity |]. simpl.
  do 5 (split; [reflexivity |]).
  split; [| intros Hconf; now apply (conforming_not_ok response Hconf)].
  intros Herror Harray. rewrite (js_or_falsy _ _ Herror).
  destruct (optProp payload "errors"); try discriminate. split; reflexivity.
Qed.

End Reached.

(** C7, as the code has it.  In every failure returned by [request] the
    flag [retryable] is true exactly for a [network] failure and for an
    [api] or [http] failure whose status is at least 500; it is false for
    a [config] failure and for a [parse] failure, whatever the status of
    the answer that could not be parsed. *)
Theorem C7_retryable_flag (baseUrl : JsValue) (token : TokenSource)
  (fetchFn : Transport) (path : string) (options : RequestOptions)
  (log : list FetchCall) (r : ApiResult) (e : ApiError) :
  fst (client_request (createDirectusClient baseUrl token fetchFn)
         path options log) = Normal r ->
  error r = Some e ->
  In (type e) ["config"; "network"; "parse"; "api"; "http"]
  /\ retryable e
     = (String.eqb (type e) "network"
        || (String.eqb (type e) "api" || String.eqb (type e) "http")
           && match status e with
              | Some s => (500 <=? s)%Z
              | None => false
              end).
Proof.
  intros Hrun Herr.
  destruct (request_failure_kinds _ _ _ _ _ _ r e Hrun Herr)
    as (Hkind & _ & Hflag).
  now split.
Qed.

(** The test "returns consistent api error for Directus error payload". *)
Example api_error_for_directus_payload :
  failureOf (client_get (stubClient (createJsonResponse false 400
                                       directusErrorPayload))
               "/items/Products" noOptions [])
  = Some {| type := "api";
            message := JStr "Invalid query";
            status := Some 400%Z;
            code := JStr "FAILED_VALIDATION";
            details := JObj [("message", JStr "Invalid query");
                             ("extensions",
                              JObj [("code", JStr "FAILED_VALIDATION")])];
            retryable := false |}.
Proof. reflexivity. Qed.

(** Witness of C3 on that test: type [api], status 400, the code of the
    first entry. *)
Lemma C3_error_classification_witness :
  option_map type
    (failureOf (client_request
                  (stubClient (createJsonResponse false 400
                                 directusErrorPayload))
                  "/items/Products" noOptions []))
  = Some "api"
  /\ option_map code
       (failureOf (client_request
                     (stubClient (createJsonResponse false 400
                                    directusErrorPayload))
                     "/items/Products" noOptions []))
     = Some (JStr "FAILED_VALIDATION").
Proof.
  assert (Hbase : toBoolean (sanitizeBaseUrl testBaseUrl) = true)
    by (vm_compute; reflexivity).
  assert (Hurl : buildUrl (toString (sanitizeBaseUrl testBaseUrl))
                   "/items/Products" (query noOptions)
                 = Normal "http://10.115.3.12:8055/items/Products")
    by (vm_compute; reflexivity).
  destruct (C3_error_classification testBaseUrl (TokenValue JNull)
              (always (Normal (createJsonResponse false 400
                                 directusErrorPayload)))
              "/items/Products" noOptions [] JNull _
              Hbase eq_refl Hurl)
    as (_ & Hnotok & _).
  destruct (Hnotok (createJsonResponse false 400 directusErrorPayload)
              directusErrorPayload eq_refl eq_refl eq_refl) as [Hapi _].
  destruct (Hapi eq_refl) as (err & Hrun & Htype & _ & _ & Hfirst).
  unfold stubClient, failureOf. rewrite Hrun. simpl.
  rewrite Htype, (Hfirst _ _ eq_refl eq_refl). split; reflexivity.
Defined.

(** C3, counterexample.  A 400 answer whose JSON body is [{"error": ""}]
    contains an [error] field and yet is classified [http], not [api]:
    the field is falsy.  And an answer object with status 500 and the
    error body of the test suite, whose [ok] flag is nevertheless true, is
    returned as a success: the status is not what is tested. *)
Lemma C3_counterexample :
  (hasProperty "error" [("error", JStr "")] = true
   /\ ~ is2xx 400
   /\ option_map type
        (failureOf (client_request
                      (stubClient (createJsonResponse false 400
                                     emptyErrorFieldPayload))
                      "/items/Products" noOptions []))
      = Some "http"
   /\ "http" <> "api")
  /\ (~ is2xx 500
      /\ fst (client_request
                (stubClient (createJsonResponse true 500
                               directusErrorPayload))
                "/items/Products" noOptions [])
         = Normal {| ok := true;
                     data := directusErrorPayload;
                     meta := JNull;
                     error := None |}).
Proof.
  repeat split; try reflexivity; try discriminate; unfold is2xx; lia.
Qed.

(** Witness of C4: the list body of client.test.js, data and meta
    unwrapped. *)
Lemma C4_success_unwrapping_witness :
  client_request
    (stubClient (createJsonResponse true 200
                   (JObj [("data", JArr [JObj [("id", JNum (num 1))]]);
                          ("meta", JObj [("filter_count", JNum (num 1))])])))
    "/items/Products" noOptions []
  = (Normal {| ok := true;
               data := JArr [JObj [("id", JNum (num 1))]];
               meta := JObj [("filter_count", JNum (num 1))];
               error := None |},
     [fetchArguments "http://10.115.3.12:8055/items/Products" noOptions
        JNull]).
Proof.
  assert (Hbase : toBoolean (sanitizeBaseUrl testBaseUrl) = true)
    by (vm_compute; reflexivity).
  assert (Hurl : buildUrl (toString (sanitizeBaseUrl testBaseUrl))
                   "/items/Products" (query noOptions)
                 = Normal "http://10.115.3.12:8055/items/Products")
    by (vm_compute; reflexivity).
  refine (proj1 (C4_success_unwrapping testBaseUrl (TokenValue JNull)
                   (always (Normal (createJsonResponse true 200
                      (JObj [("data", JArr [JObj [("id", JNum (num 1))]]);
                             ("meta", JObj [("filter_count", JNum (num 1))])]))))
                   "/items/Products" noOptions [] JNull _
                   Hbase eq_refl Hurl _ _ eq_refl eq_refl eq_refl)
            eq_refl).
Defined.

(** The test "is testable by mocking fetch and returns network errors". *)
Example network_error_from_transport :
  failureOf (listProducts
               (createDirectusClient testBaseUrl (TokenValue JNull)
                  (always (Abrupt (jsError "ECONNREFUSED"))))
               "Products" noListOptions [])
  = Some {| type := "network";
            message := JStr "ECONNREFUSED";
            status := None;
            code := JNull;
            details := jsError "ECONNREFUSED";
            retryable := true |}.
Proof. reflexivity. Qed.

(** The test "graphql method exists and uses /graphql endpoint". *)
Example graphql_uses_graphql_endpoint :
  map (fun c => (init_method (call_init c), call_url c))
    (snd (client_graphql
            (stubClient (createJsonResponse true 200
                           (JObj [("data", JObj [("products", JArr [])])])))
            (JStr "{ products { id } }") JUndefined JUndefined JUndefined []))
  = [("POST", "http://10.115.3.12:8055/graphql")].
Proof. reflexivity. Qed.

(** C4, counterexample.  A 200 answer with the JSON body
    [{"data": [{"id": 1}], "meta": 0}] returns [meta: null], whereas
    [payload.meta ?? null] is [0].  And an answer object with status 200
    and that body whose [ok] flag is false is not unwrapped at all: it is
    an [http] failure. *)
Lemma C4_counterexample :
  (fst (client_request
          (stubClient (createJsonResponse true 200 zeroMetaPayload))
          "/items/Products" noOptions [])
   = Normal {| ok := true;
               data := JArr [JObj [("id", JNum (num 1))]];
               meta := JNull;
               error := None |}
   /\ nullish_coalesce (getProp zeroMetaPayload "meta") JNull = JNum (num 0)
   /\ JNull <> JNum (num 0))
  /\ (is2xx 200
      /\ option_map type
           (failureOf (client_request
                         (stubClient (createJsonResponse false 200
                                        zeroMetaPayload))
                         "/items/Products" noOptions []))
         = Some "http").
Proof.
  repeat split; try (vm_compute; reflexivity); try discriminate;
    unfold is2xx; lia.
Qed.

(** Witness of C10: a 400 answer with the body [{"errors": []}] is an
    [api] failure with the generic message and a null code. *)
Lemma C10_errors_without_first_entry_witness :
  option_map (fun e => (type e, message e, code e))
    (failureOf (client_request
                  (stubClient (createJsonResponse false 400
                                 emptyErrorsPayload))
                  "/items/Products" noOptions []))
  = Some ("api", genericApiMessage 400, JNull).
Proof.
  assert (Hbase : toBoolean (sanitizeBaseUrl testBaseUrl) = true)
    by (vm_compute; reflexivity).
  assert (Hurl : buildUrl (toString (sanitizeBaseUrl testBaseUrl))
                   "/items/Products" (query noOptions)
                 = Normal "http://10.115.3.12:8055/items/Products")
    by (vm_compute; reflexivity).
  destruct (C10_errors_without_first_entry testBaseUrl (TokenValue JNull)
              (always (Normal (createJsonResponse false 400
                                 emptyErrorsPayload)))
              "/items/Products" noOptions [] JNull _
              Hbase eq_refl Hurl
              (createJsonResponse false 400 emptyErrorsPayload)
              emptyErrorsPayload eq_refl eq_refl eq_refl eq_refl eq_refl)
    as (err & Hrun & Htype & _ & _ & _ & _ & Hgeneric & _).
  destruct (Hgeneric eq_refl eq_refl) as [Hmessage Hcode].
  unfold stubClient, failureOf. rewrite Hrun. simpl.
  now rewrite Htype, Hmessage, Hcode.
Defined.

(** C10, counterexample.  A 400 answer with the body
    [{"errors": [], "error": {"message": "boom", "code": "E_BOOM"}}] has a
    truthy [errors] without first entry, and its failure carries the
    message and the code of [payload.error], not the generic message and a
    null code.  And an answer object with status 400 and the body
    [{"errors": []}] whose [ok] flag is true is no failure at all. *)
Lemma C10_counterexample :
  (toBoolean (optProp emptyErrorsWithErrorPayload "errors") = true
   /\ optFirst (optProp emptyErrorsWithErrorPayload "errors") = JUndefined
   /\ failureOf (client_request
                   (stubClient (createJsonResponse false 400
                                  emptyErrorsWithErrorPayload))
                   "/items/Products" noOptions [])
      = Some {| type := "api";
                message := JStr "boom";
                status := Some 400%Z;
                code := JStr "E_BOOM";
                details := JObj [("message", JStr "boom");
                                 ("code", JStr "E_BOOM")];
                retryable := false |}
   /\ JStr "boom" <> genericApiMessage 400
   /\ JStr "E_BOOM" <> JNull)
  /\ (~ is2xx 400
      /\ fst (client_request
                (stubClient (createJsonResponse true 400 emptyErrorsPayload))
                "/items/Products" noOptions [])
         = Normal {| ok := true;
                     data := emptyErrorsPayload;
                     meta := JNull;
                     error := None |}).
Proof.
  repeat split; try (vm_compute; reflexivity); try discriminate;
    unfold is2xx; lia.
Qed.

(** Witness of C7: the network test of client.test.js, [retryable] true. *)
Lemma C7_retryable_flag_witness :
  retryable (createApiError "network" (JStr "ECONNREFUSED") None JUndefined
               (jsError "ECONNREFUSED") true)
  = true.
Proof.
  refine (proj2 (C7_retryable_flag testBaseUrl (TokenValue JNull)
                   (always (Abrupt (jsError "ECONNREFUSED")))
                   "/items/Products" noOptions [] _ _ eq_refl eq_refl)).
Defined.

(** C7, counterexample.  A 503 answer that announces JSON and does not
    decode gives a [parse] failure with status 503 and [retryable] false. *)
Lemma C7_counterexample :
  failureOf (client_request (stubClient (brokenJsonResponse 503))
               "/items/Products" noOptions [])
  = Some {| type := "parse";
            message := JStr "Unable to parse API response.";
            status := Some 503%Z;
            code := JNull;
            details := jsError "Unexpected token < in JSON at position 0";
            retryable := false |}
  /\ (500 <=? 503)%Z = true.
Proof. split; reflexivity. Qed.

End ClassificationFacts.


(* ------------------------------------------------------------------ *)
(** ** Products helper *)

Module ProductsFacts.

Import EscapeFacts ClientFacts.




(** C8.  When [client.get] returns a successful result, [listProducts]
    returns a successful result whose data is an array: the data of the
    client's result unchanged, elements and order included, if that is an
    array, and the empty array otherwise. *)
Theorem C8_listProducts_array (client : DirectusClient) (collection : string)
  (options : ListOptions) (log log' : list FetchCall) (result : ApiResult) :
  client_get client (collectionPath collection)
    (getOptions (JObj (buildProductsQuery options)) (list_signal options)) log
  = (Normal result, log') ->
  ok result = true ->
  exists listed,
    listProducts client collection options log = (Normal listed, log')
    /\ ok listed = true
    /\ error listed = None
    /\ isArray (data listed) = true
    /\ (isArray (data result) = true -> data listed = data result)
    /\ (isArray (data result) = false -> data listed = JArr []).
Proof.
  intros Hget Hok. unfold listProducts, bind. rewrite Hget, Hok. simpl.
  eexists. split; [reflexivity |]. simpl.
  destruct (data result); repeat split; try reflexivity; discriminate.
Qed.

(** Witness of C8: the client core answering with a single object. *)
Lemma C8_listProducts_array_witness :
  option_map data
    (match fst (listProducts
                  (stubClient (createJsonResponse true 200
                                 (JObj [("data", JObj [("id", JNum (num 1))])])))
                  "Products" noListOptions [])
     with
     | Normal r => Some r
     | Abrupt _ => None
     end)
  = Some (JArr []).
Proof.
  destruct (C8_listProducts_array
              (stubClient (createJsonResponse true 200
                             (JObj [("data", JObj [("id", JNum (num 1))])])))
              "Products" noListOptions [] _ _
              ltac:(vm_compute; reflexivity) eq_refl)
    as (listed & Hrun & _ & _ & _ & _ & Hempty).
  rewrite Hrun. simpl. now rewrite (Hempty eq_refl).
Defined.

(** The test "products list uses /items/Products and unwraps data array". *)
Example products_list_test :
  listProducts
    (createDirectusClient testBaseUrl (TokenValue (JStr "token-123"))
       (always (Normal (createJsonResponse true 200
          (JObj [("data", JArr [JObj [("id", JNum (num 1));
                                      ("title", JStr "Coffee")]]);
                 ("meta", JObj [("filter_count", JNum (num 1))])])))))
    "Products"
    {| filter := JObj [("status", JObj [("_eq", JStr "published")])];
       fields := JUndefined; limit := JNum (num 1); page := JUndefined;
       search := JUndefined; sort := JUndefined; list_signal := JUndefined |}
    []
  = (Normal {| ok := true;
               data := JArr [JObj [("id", JNum (num 1));
                                   ("title", JStr "Coffee")]];
               meta := JObj [("filter_count", JNum (num 1))];
               error := None |},
     [{| call_url :=
           "http://10.115.3.12:8055/items/Products?filter%5Bstatus%5D%5B_eq%5D=published&limit=1";
         call_init :=
           {| init_method := "GET";
              init_headers := [("Accept", "application/json");
                               ("Authorization", "Bearer token-123")];
              init_body := WirePassThrough (BodyValue JUndefined);
              init_signal := JUndefined |} |}]).
Proof. vm_compute. reflexivity. Qed.




End ProductsFacts.

(* ------------------------------------------------------------------ *)
(** ** Base URL and URL assembly *)

Module UrlFacts.

Import EscapeFacts ClientFacts.

Lemma dropWhileEnd_all (p : ascii -> bool) (s : string) :
  forallb p (list_ascii_of_string s) = true -> dropWhileEnd p s = "".
Proof.
  induction s as [| c rest IH]; simpl; intros Hall; [reflexivity |].
  apply andb_true_iff in Hall as [Hc Hrest].
  now rewrite (IH Hrest), Hc.
Qed.

Lemma dropWhileEnd_last (p : ascii -> bool) (s : string) :
  forall (r : string) (c : ascii),
    dropWhileEnd p s = r ++ String c "" -> p c = false.
Proof.
  induction s as [| a rest IH]; simpl; intros r c Heq.
  - destruct r; discriminate.
  - destruct (p a && String.eqb (dropWhileEnd p rest) "") eqn:Hdrop.
    + destruct r; discriminate.
    + destruct r as [| a' r']; simpl in Heq; inversion Heq; subst.
      * rewrite H1 in Hdrop. simpl in Hdrop.
        now rewrite andb_true_r in Hdrop.
      * now apply (IH r').
Qed.

Lemma dropWhileEnd_head (p : ascii -> bool) (s : string) (c : ascii)
  (r : string) :
  dropWhileEnd p s = String c r -> exists rest, s = String c rest.
Proof.
  destruct s as [| a rest]; simpl; [discriminate |].
  destruct (p a && String.eqb (dropWhileEnd p rest) ""); [discriminate |].
  intros Heq. inversion Heq; subst. now exists rest.
Qed.

Lemma dropWhile_head (p : ascii -> bool) (s : string) (c : ascii)
  (r : string) :
  dropWhile p s = String c r -> p c = false.
Proof.
  induction s as [| a rest IH]; simpl; [discriminate |].
  destruct (p a) eqn:Hp; [exact IH |].
  intros Heq. now inversion Heq; subst.
Qed.

(** X1.  A base URL that [sanitizeBaseUrl] accepts comes out without a
    trailing slash and without leading white space; everything else is
    [null]. *)
Theorem sanitizeBaseUrl_shape (baseUrl : JsValue) :
  sanitizeBaseUrl baseUrl = JNull
  \/ exists u,
       sanitizeBaseUrl baseUrl = JStr u
       /\ (forall r, u <> r ++ "/")
       /\ (forall c rest, u = String c rest -> isWhiteSpace c = false).
Proof.
  destruct baseUrl as [| | b | n | s | items | props]; try (now left).
  simpl. destruct (String.eqb (trim s) ""); [now left |].
  right. eexists. split; [reflexivity |]. split.
  - intros r Heq. unfold stripTrailingSlashes in Heq.
    now apply dropWhileEnd_last in Heq.
  - intros c rest Heq. unfold stripTrailingSlashes in Heq.
    apply dropWhileEnd_head in Heq as [rest1 Htrim].
    unfold trim in Htrim.
    apply dropWhileEnd_head in Htrim as [rest2 Hdrop].
    now apply dropWhile_head in Hdrop.
Qed.

(** X2.  A base URL whose trimmed text is made of slashes only is as
    unusable as a blank one: the normalised URL is the empty string, and
    [request], like every verb helper, returns the [config] failure without
    calling the transport. *)
Theorem slash_only_base_url_is_rejected (s : string) (token : TokenSource)
  (fetchFn : Transport) (log : list FetchCall) :
  forallb isSlash (list_ascii_of_string (trim s)) = true ->
  let client := createDirectusClient (JStr s) token fetchFn in
  (forall path options,
      client_request client path options log = (Normal configFailure, log))
  /\ (forall path options,
        client_get client path options log = (Normal configFailure, log))
  /\ (forall path body options,
        client_post client path body options log
        = (Normal configFailure, log)).
Proof.
  intros Hslashes client.
  assert (Hbase : toBoolean (sanitizeBaseUrl (JStr s)) = false).
  { simpl. destruct (String.eqb (trim s) ""); [reflexivity |].
    unfold stripTrailingSlashes. now rewrite dropWhileEnd_all. }
  repeat split; intros; simpl; unfold get, post;
    now rewrite request_config.
Qed.

Lemma slash_only_base_url_is_rejected_witness :
  client_get
    (createDirectusClient (JStr " // ") (TokenValue JNull)
       (always (Normal (createJsonResponse true 200
                          (JObj [("data", JArr [])])))))
    "/items/Products" noOptions []
  = (Normal configFailure, []).
Proof.
  apply (slash_only_base_url_is_rejected " // "). reflexivity.
Defined.

(** X3.  The TypeScript client normalises the base URL and recognises
    plain objects exactly as the JavaScript client does, although the two
    are written differently. *)
Theorem typescript_variants_agree (value : JsValue) :
  ClientTs.sanitizeBaseUrl value = sanitizeBaseUrl value
  /\ ClientTs.isObject value = isPlainObject value.
Proof.
  split.
  - destruct value as [| | [|] | n | s | items | props]; try reflexivity.
    + unfold ClientTs.sanitizeBaseUrl. simpl.
      now destruct (numberToBoolean n).
    + unfold ClientTs.sanitizeBaseUrl. simpl.
      destruct s as [| c rest]; [reflexivity |]. simpl negb.
      cbv beta iota.
      change (toString (JStr (String c rest))) with (String c rest).
      now destruct (String.eqb (trim (String c rest)) "").
  - now destruct value as [| | [|] | n | s | items | props];
      unfold ClientTs.isObject; simpl; rewrite ?andb_false_r.
Qed.

(** X4.  [buildUrl] puts exactly one slash in front of a path that lacks
    it, and writes a question mark only when the query yields at least one
    parameter: an absent query, an empty mapping, or one whose values are
    all skipped gives the bare path. *)
Theorem buildUrl_shape (baseUrl path : string)
  (props : list (string * JsValue)) :
  (startsWith "/" path = false ->
   buildUrl baseUrl path (JObj props)
   = buildUrl baseUrl ("/" ++ path) (JObj props))
  /\ buildUrl baseUrl ("/" ++ path) JUndefined
     = Normal (baseUrl ++ "/" ++ path)
  /\ (specQueryParams (objectEntries props) = [] ->
      buildUrl baseUrl ("/" ++ path) (JObj props)
      = Normal (baseUrl ++ "/" ++ path))
  /\ (specQueryParams (objectEntries props) <> [] ->
      buildUrl baseUrl ("/" ++ path) (JObj props)
      = Normal (baseUrl ++ "/" ++ path ++ "?"
                ++ specSerialize (objectEntries props))).
Proof.
  assert (Hslash : startsWith "/" ("/" ++ path) = true).
  { unfold startsWith. simpl. now destruct path. }
  split; [| split; [| split]].
  - intros Hpath. unfold buildUrl. now rewrite Hpath, Hslash.
  - unfold buildUrl. now rewrite Hslash.
  - intros Hnone. unfold buildUrl. rewrite Hslash.
    rewrite QueryFacts.serializeQuery_refines. unfold specSerialize.
    now rewrite Hnone.
  - intros Hsome. unfold buildUrl. rewrite Hslash.
    rewrite QueryFacts.serializeQuery_refines.
    assert (Hq : String.eqb (specSerialize (objectEntries props)) "" = false).
    { unfold specSerialize.
      destruct (specQueryParams (objectEntries props)) as [| nv sp];
        [congruence |].
      apply (spToString_nonempty nv sp). }
    now rewrite Hq.
Qed.

Lemma buildUrl_shape_witness :
  buildUrl "http://cms" "items/Products" (JObj [("fields", JArr [])])
  = Normal "http://cms/items/Products".
Proof.
  destruct (buildUrl_shape "http://cms" "items/Products"
              [("fields", JArr [])]) as (Hslash & _ & Hbare & _).
  rewrite (Hslash eq_refl). exact (Hbare eq_refl).
Defined.

End UrlFacts.


(* ------------------------------------------------------------------ *)
(** ** The call [request] makes *)

Module CallFacts.

Import ClientFacts.

Lemma lookupEntry_setEntry {A : Type} (name : string) (value : A)
  (props : list (string * A)) :
  lookupEntry name (setEntry name value props) = Some value.
Proof.
  induction props as [| [k v] rest IH]; simpl.
  - now rewrite String.eqb_refl.
  - destruct (String.eqb k name) eqn:Hk; simpl; now rewrite Hk.
Qed.

Lemma lookupEntry_setEntry_other {A : Type} (name other : string) (value : A)
  (props : list (string * A)) :
  String.eqb name other = false ->
  lookupEntry other (setEntry name value props) = lookupEntry other props.
Proof.
  intros Hother. induction props as [| [k v] rest IH]; simpl.
  - now rewrite Hother.
  - destruct (String.eqb k name) eqn:Hk; simpl.
    + apply String.eqb_eq in Hk. subst k. now rewrite Hother.
    + now rewrite IH.
Qed.



(** X6.  The verb helpers decide the method, and [post] and [patch] the
    body, whatever the caller's options say: [get] and [delete] ignore a
    [method] option and send the caller's [body] option along, [post] and
    [patch] replace both.  The URL and the signal are those of
    [request]. *)
Theorem verb_helpers_fix_the_method (baseUrl : JsValue) (token : TokenSource)
  (fetchFn : Transport) (path : string) (options : RequestOptions)
  (payload : BodyArg) (log : list FetchCall) (resolvedToken : JsValue)
  (url : string) :
  toBoolean (sanitizeBaseUrl baseUrl) = true ->
  resolveToken token = Normal resolvedToken ->
  buildUrl (toString (sanitizeBaseUrl baseUrl)) path (query options)
  = Normal url ->
  let client := createDirectusClient baseUrl token fetchFn in
  let sent := fun (verb : string) (body : BodyArg) =>
    {| call_url := url;
       call_init :=
         {| init_method := verb;
            init_headers :=
              requestHeaders
                {| method := Some verb; query := query options; body := body;
                   headers := headers options; signal := signal options |}
                resolvedToken;
            init_body := encodeBody body;
            init_signal := signal options |} |} in
  snd (client_get client path options log)
  = (log ++ [sent "GET" (body options)])%list
  /\ snd (client_delete client path options log)
     = (log ++ [sent "DELETE" (body options)])%list
  /\ snd (client_post client path payload options log)
     = (log ++ [sent "POST" payload])%list
  /\ snd (client_patch client path payload options log)
     = (log ++ [sent "PATCH" payload])%list.
Proof.
  intros Hbase Htoken Hurl client sent.
  repeat split; simpl; unfold get, delete, post, patch.
  - destruct (request_dispatches (sanitizeBaseUrl baseUrl) token fetchFn path
                (withMethod "GET" options) log resolvedToken url
                Hbase Htoken Hurl) as [r ->].
    reflexivity.
  - destruct (request_dispatches (sanitizeBaseUrl baseUrl) token fetchFn path
                (withMethod "DELETE" options) log resolvedToken url
                Hbase Htoken Hurl) as [r ->].
    reflexivity.
  - destruct (request_dispatches (sanitizeBaseUrl baseUrl) token fetchFn path
                (withMethodBody "POST" payload options) log resolvedToken url
                Hbase Htoken Hurl) as [r ->].
    reflexivity.
  - destruct (request_dispatches (sanitizeBaseUrl baseUrl) token fetchFn path
                (withMethodBody "PATCH" payload options) log resolvedToken url
                Hbase Htoken Hurl) as [r ->].
    reflexivity.
Qed.

Lemma verb_helpers_fix_the_method_witness :
  map (fun c => init_method (call_init c))
    (snd (client_delete (stubClient (createJsonResponse true 200 JNull))
            "/items/Products/7"
            {| method := Some "GET"; query := JUndefined;
               body := BodyValue JUndefined; headers := None;
               signal := JUndefined |} []))
  = ["DELETE"].
Proof.
  destruct (verb_helpers_fix_the_method testBaseUrl (TokenValue JNull)
              (always (Normal (createJsonResponse true 200 JNull)))
              "/items/Products/7"
              {| method := Some "GET"; query := JUndefined;
                 body := BodyValue JUndefined; headers := None;
                 signal := JUndefined |}
              (BodyValue JUndefined) [] JNull
              "http://10.115.3.12:8055/items/Products/7"
              ltac:(vm_compute; reflexivity) eq_refl
              ltac:(vm_compute; reflexivity)) as (_ & Hdelete & _).
  unfold stubClient. rewrite Hdelete. reflexivity.
Defined.

(** X7.  The headers of the call.  A truthy resolved token always ends up
    as [Authorization: Bearer <token>], replacing an [Authorization] header
    of the caller; a body that is JSON-encoded always gets
    [Content-Type: application/json], replacing the caller's; without
    caller headers the list is [Accept: application/json] followed by
    these two where they apply, and nothing else: no [Authorization]
    header is sent for a falsy token, no [Content-Type] for an absent or
    multipart body. *)
Theorem request_headers (options : RequestOptions) (resolvedToken : JsValue) :
  (toBoolean resolvedToken = true ->
   lookupEntry "Authorization" (requestHeaders options resolvedToken)
   = Some ("Bearer " ++ toString resolvedToken))
  /\ (isJsonBody (body options) = true ->
      lookupEntry "Content-Type" (requestHeaders options resolvedToken)
      = Some "application/json")
  /\ (headers options = None \/ headers options = Some [] ->
      requestHeaders options resolvedToken
      = ([("Accept", "application/json")]
         ++ (if isJsonBody (body options)
             then [("Content-Type", "application/json")] else [])
         ++ (if toBoolean resolvedToken
             then [("Authorization",
                    ("Bearer " ++ toString resolvedToken)%string)]
             else []))%list)
  /\ (isJsonBody (body options) = true
      <-> exists text, encodeBody (body options) = WireText text).
Proof.
  split; [| split; [| split]].
  - intros Htoken. unfold requestHeaders. rewrite Htoken.
    apply lookupEntry_setEntry.
  - intros Hjson. unfold requestHeaders. rewrite Hjson.
    destruct (toBoolean resolvedToken).
    + rewrite lookupEntry_setEntry_other by reflexivity.
      apply lookupEntry_setEntry.
    + apply lookupEntry_setEntry.
  - intros Hnone. unfold requestHeaders.
    assert (Hspread : spread [("Accept", "application/json")]
                        match headers options with
                        | Some h => h
                        | None => []
                        end
                      = [("Accept", "application/json")])
      by (destruct Hnone as [-> | ->]; reflexivity).
    rewrite Hspread.
    destruct (isJsonBody (body options)), (toBoolean resolvedToken);
      reflexivity.
  - destruct (body options) as [[] |]; simpl; split;
      try discriminate; try (intros [text Htext]; discriminate);
      intros _; eexists; reflexivity.
Qed.

Lemma request_headers_witness :
  lookupEntry "Authorization"
    (requestHeaders
       {| method := None; query := JUndefined; body := BodyValue JUndefined;
          headers := Some [("Authorization", "Basic abc")];
          signal := JUndefined |}
       (JStr "token-123"))
  = Some "Bearer token-123".
Proof.
  apply (proj1 (request_headers
                  {| method := None; query := JUndefined;
                     body := BodyValue JUndefined;
                     headers := Some [("Authorization", "Basic abc")];
                     signal := JUndefined |}
                  (JStr "token-123"))).
  reflexivity.
Defined.

(** X8.  [graphql] is a [POST] to [<base URL>/graphql] whose body is the
    JSON text of [{query, variables, operationName}] in that order, an
    [undefined] member left out, sent as [application/json]; no query
    string is written. *)
Theorem graphql_call (baseUrl : JsValue) (token : TokenSource)
  (fetchFn : Transport) (gqlQuery variables operationName signal : JsValue)
  (log : list FetchCall) (resolvedToken : JsValue) :
  toBoolean (sanitizeBaseUrl baseUrl) = true ->
  resolveToken token = Normal resolvedToken ->
  exists r call,
    client_graphql (createDirectusClient baseUrl token fetchFn)
      gqlQuery variables operationName signal log
    = (Normal r, (log ++ [call])%list)
    /\ call_url call = toString (sanitizeBaseUrl baseUrl) ++ "/graphql"
    /\ init_method (call_init call) = "POST"
    /\ init_body (call_init call)
       = WireText (stringify (JObj [("query", gqlQuery);
                                    ("variables", variables);
                                    ("operationName", operationName)]))
    /\ lookupEntry "Content-Type" (init_headers (call_init call))
       = Some "application/json"
    /\ init_signal (call_init call) = signal.
Proof.
  intros Hbase Htoken. simpl. unfold graphql.
  destruct (request_dispatches (sanitizeBaseUrl baseUrl) token fetchFn
              "/graphql"
              {| method := Some "POST"; query := JUndefined;
                 body := BodyValue (JObj [("query", gqlQuery);
                                          ("variables", variables);
                                          ("operationName", operationName)]);
                 headers := None; signal := signal |}
              log resolvedToken
              (toString (sanitizeBaseUrl baseUrl) ++ "/graphql")
              Hbase Htoken eq_refl) as [r Hrun].
  rewrite Hrun. eexists. eexists. split; [reflexivity |].
  repeat split.
  simpl. unfold requestHeaders. simpl.
  destruct (toBoolean resolvedToken); reflexivity.
Qed.

Lemma graphql_call_witness :
  map (fun c => (call_url c, init_body (call_init c)))
    (snd (client_graphql
            (stubClient (createJsonResponse true 200
                           (JObj [("data", JObj [("products", JArr [])])])))
            (JStr "{ products { id } }") JUndefined JUndefined JUndefined []))
  = [("http://10.115.3.12:8055/graphql",
      WireText (Some ("{" ++ quoteJson "query" ++ ":"
                      ++ quoteJson "{ products { id } }" ++ "}")))].
Proof.
  destruct (graphql_call testBaseUrl (TokenValue JNull)
              (always (Normal (createJsonResponse true 200
                                 (JObj [("data",
                                         JObj [("products", JArr [])])]))))
              (JStr "{ products { id } }") JUndefined JUndefined JUndefined
              [] JNull ltac:(vm_compute; reflexivity) eq_refl)
    as (r & call & Hrun & Hurl & _ & Hbody & _).
  unfold stubClient. rewrite Hrun. simpl. rewrite Hurl, Hbody.
  vm_compute. reflexivity.
Defined.

End CallFacts.

(* ------------------------------------------------------------------ *)
(** ** How a request ends *)

Module OutcomeFacts.

Import ClientFacts.


(** X10.  A body that cannot be decoded is a [parse] failure whatever the
    flag [ok] and the status are, a 2xx answer included: the failure
    carries the status of the answer, the thrown value as details ([null]
    if it is [undefined]) and is not retryable.  The body is decoded by
    [json()] when the content type contains [application/json], and by
    [text()], never by [json()], otherwise. *)
Theorem undecodable_body_is_a_parse_failure (baseUrl : JsValue)
  (token : TokenSource) (fetchFn : Transport) (path : string)
  (options : RequestOptions) (log : list FetchCall)
  (resolvedToken : JsValue) (url : string) (response : Response)
  (e : JsValue) :
  toBoolean (sanitizeBaseUrl baseUrl) = true ->
  resolveToken token = Normal resolvedToken ->
  buildUrl (toString (sanitizeBaseUrl baseUrl)) path (query options)
  = Normal url ->
  fetchFn log (fetchArguments url options resolvedToken) = Normal response ->
  (if includes "application/json" (contentTypeOf response)
   then resp_json response else
     match resp_text response with
     | Normal _ => Normal JNull
     | Abrupt thrown => Abrupt thrown
     end) = Abrupt e ->
  client_request (createDirectusClient baseUrl token fetchFn) path options log
  = (Normal {| ok := false;
               data := JNull;
               meta := JNull;
               error := Some {| type := "parse";
                                message := JStr "Unable to parse API response.";
                                status := Some (resp_status response);
                                code := JNull;
                                details := match e with
                                           | JUndefined => JNull
                                           | _ => e
                                           end;
                                retryable := false |} |},
     (log ++ [fetchArguments url options resolvedToken])%list).
Proof.
  intros Hbase Htoken Hurl Hfetch Hbody. simpl.
  assert (Hparse : parseResponse response = Abrupt e).
  { unfold parseResponse.
    destruct (includes "application/json" (contentTypeOf response));
      [exact Hbody |].
    destruct (resp_text response); [discriminate | exact Hbody]. }
  rewrite (request_parse _ token fetchFn path options log resolvedToken url
             Hbase Htoken Hurl response e Hfetch Hparse).
  reflexivity.
Qed.

Lemma undecodable_body_is_a_parse_failure_witness :
  option_map (fun err => (type err, status err, retryable err))
    (failureOf (client_request (stubClient (brokenJsonResponse 200))
                  "/items/Products" noOptions []))
  = Some ("parse", Some 200%Z, false).
Proof.
  unfold stubClient.
  rewrite (undecodable_body_is_a_parse_failure testBaseUrl (TokenValue JNull)
             (always (Normal (brokenJsonResponse 200)))
             "/items/Products" noOptions [] JNull
             "http://10.115.3.12:8055/items/Products"
             (brokenJsonResponse 200)
             (jsError "Unexpected token < in JSON at position 0")
             ltac:(vm_compute; reflexivity) eq_refl
             ltac:(vm_compute; reflexivity) eq_refl eq_refl).
  reflexivity.
Defined.

(** X11.  An answer whose [ok] flag is false and whose content type does
    not contain [application/json] is always an [http] failure, never an
    [api] one, whatever its text says: the details are [{raw: text}], or
    [{}] for an empty text, the status is that of the answer and the
    failure is retryable exactly from status 500 on. *)
Theorem non_json_failure_is_http (baseUrl : JsValue) (token : TokenSource)
  (fetchFn : Transport) (path : string) (options : RequestOptions)
  (log : list FetchCall) (resolvedToken : JsValue) (url : string)
  (response : Response) (text : string) :
  toBoolean (sanitizeBaseUrl baseUrl) = true ->
  resolveToken token = Normal resolvedToken ->
  buildUrl (toString (sanitizeBaseUrl baseUrl)) path (query options)
  = Normal url ->
  fetchFn log (fetchArguments url options resolvedToken) = Normal response ->
  resp_ok response = false ->
  includes "application/json" (contentTypeOf response) = false ->
  resp_text response = Normal text ->
  client_request (createDirectusClient baseUrl token fetchFn) path options log
  = (Normal {| ok := false;
               data := JNull;
               meta := JNull;
               error :=
                 Some {| type := "http";
                         message :=
                           JStr ("HTTP request failed with status "
                                 ++ numberToString (num (resp_status response))
                                 ++ ".");
                         status := Some (resp_status response);
                         code := JNull;
                         details := if String.eqb text "" then JObj []
                                    else JObj [("raw", JStr text)];
                         retryable := (500 <=? resp_status response)%Z |} |},
     (log ++ [fetchArguments url options resolvedToken])%list).
Proof.
  intros Hbase Htoken Hurl Hfetch Hok Hjson Htext. simpl.
  assert (Hparse : parseResponse response
                   = Normal (if negb (String.eqb text "")
                             then JObj [("raw", JStr text)] else JObj []))
    by (unfold parseResponse; now rewrite Hjson, Htext).
  rewrite (request_not_ok _ token fetchFn path options log resolvedToken url
             Hbase Htoken Hurl response _ Hfetch Hparse Hok).
  now destruct (String.eqb text "").
Qed.

Lemma non_json_failure_is_http_witness :
  option_map (fun err => (type err, details err, retryable err))
    (failureOf (client_request
                  (stubClient (textResponse 503 "{ errors: [1] }"))
                  "/items/Products" noOptions []))
  = Some ("http", JObj [("raw", JStr "{ errors: [1] }")], true).
Proof.
  unfold stubClient.
  rewrite (non_json_failure_is_http testBaseUrl (TokenValue JNull)
             (always (Normal (textResponse 503 "{ errors: [1] }")))
             "/items/Products" noOptions [] JNull
             "http://10.115.3.12:8055/items/Products"
             (textResponse 503 "{ errors: [1] }") "{ errors: [1] }"
             ltac:(vm_compute; reflexivity) eq_refl
             ltac:(vm_compute; reflexivity) eq_refl eq_refl eq_refl eq_refl).
  reflexivity.
Defined.

End OutcomeFacts.

(* ------------------------------------------------------------------ *)
(** ** The products helper beyond the two claims *)

Module HelperFacts.

Import EntriesFacts.

(** X12.  [listProducts] and [queryProducts] hand a failure of
    [client.get] back as it is, error and log included, and let an
    exception of [client.get] through; they never turn a failure into an
    empty list. *)
Theorem listProducts_passes_failures_through (client : DirectusClient)
  (collection : string) (options : ListOptions) (log log' : list FetchCall) :
  (forall result,
      client_get client (collectionPath collection)
        (getOptions (JObj (buildProductsQuery options)) (list_signal options))
        log
      = (Normal result, log') ->
      ok result = false ->
      listProducts client collection options log = (Normal result, log')
      /\ queryProducts client collection options log = (Normal result, log'))
  /\ (forall e,
         client_get client (collectionPath collection)
           (getOptions (JObj (buildProductsQuery options))
              (list_signal options))
           log
         = (Abrupt e, log') ->
         listProducts client collection options log = (Abrupt e, log')
         /\ queryProducts client collection options log = (Abrupt e, log')).
Proof.
  split; intros x Hget; [intros Hok |];
    unfold queryProducts, listProducts, bind; rewrite Hget;
    rewrite ?Hok; split; reflexivity.
Qed.

Lemma listProducts_passes_failures_through_witness :
  option_map type
    (failureOf (listProducts
                  (createDirectusClient JUndefined (TokenValue JNull)
                     (always (Abrupt (jsError "unreachable"))))
                  "Products" noListOptions []))
  = Some "config".
Proof.
  destruct (listProducts_passes_failures_through
              (createDirectusClient JUndefined (TokenValue JNull)
                 (always (Abrupt (jsError "unreachable"))))
              "Products" noListOptions [] []) as [Hfail _].
  destruct (Hfail configFailure eq_refl eq_refl) as [Hrun _].
  rewrite Hrun. reflexivity.
Defined.

(** X13.  The query [buildProductsQuery] builds has its keys in the fixed
    order [filter], [fields], [sort], [limit], [page], [search], whatever
    the order of the caller's options, each at most once, and none of them
    is an array index, so that this is also the order in which they are
    serialised.  [filter], [fields], [sort] and [search] are present
    exactly when truthy, [limit] and [page] exactly when they are numbers:
    a limit of [0] is kept, a limit given as text is dropped. *)
Theorem buildProductsQuery_keys (o : ListOptions) :
  isSubsequence (map fst (buildProductsQuery o)) productQueryKeys = true
  /\ objectEntries (buildProductsQuery o) = buildProductsQuery o
  /\ lookup "filter" (buildProductsQuery o)
     = (if toBoolean (filter o) then Some (filter o) else None)
  /\ lookup "fields" (buildProductsQuery o)
     = (if toBoolean (fields o) then Some (toCommaSeparated (fields o))
        else None)
  /\ lookup "sort" (buildProductsQuery o)
     = (if toBoolean (sort o) then Some (toCommaSeparated (sort o))
        else None)
  /\ lookup "limit" (buildProductsQuery o)
     = (if isNumber (limit o) then Some (limit o) else None)
  /\ lookup "page" (buildProductsQuery o)
     = (if isNumber (page o) then Some (page o) else None)
  /\ lookup "search" (buildProductsQuery o)
     = (if toBoolean (search o) then Some (search o) else None).
Proof.
  unfold buildProductsQuery.
  destruct (toBoolean (filter o)), (toBoolean (fields o)),
    (toBoolean (sort o)), (isNumber (limit o)), (isNumber (page o)),
    (toBoolean (search o));
    (split; [reflexivity |]);
    (split; [apply objectEntries_named; reflexivity |]);
    repeat split; reflexivity.
Qed.

(** X14.  Joining [fields] or [sort] before the serialiser sees them
    changes nothing for a non-empty array, which the serialiser would join
    the same way; but an empty array, which the serialiser skips, becomes
    the empty text and is sent as an empty parameter [key=].
    [toCommaSeparated] never returns an array and leaves its own results
    alone. *)
Theorem toCommaSeparated_and_the_serialiser (sp : SearchParams)
  (key : string) (value : JsValue) :
  (forall item items,
      value = JArr (item :: items) ->
      appendQueryParam sp key (toCommaSeparated value)
      = appendQueryParam sp key value)
  /\ (value = JArr [] ->
      appendQueryParam sp key value = sp
      /\ appendQueryParam sp key (toCommaSeparated value)
         = (sp ++ [(key, "")])%list)
  /\ isArray (toCommaSeparated value) = false
  /\ toCommaSeparated (toCommaSeparated value) = toCommaSeparated value.
Proof.
  split; [| split; [| split]].
  - intros item items ->. reflexivity.
  - intros ->. split; reflexivity.
  - now destruct value.
  - now destruct value.
Qed.

Lemma toCommaSeparated_and_the_serialiser_witness :
  appendQueryParam [] "fields" (toCommaSeparated (JArr []))
  = [("fields", "")]
  /\ appendQueryParam [] "fields" (JArr []) = [].
Proof.
  destruct (toCommaSeparated_and_the_serialiser [] "fields" (JArr []))
    as (_ & Hempty & _).
  destruct (Hempty eq_refl) as [Hraw Hjoined].
  split; [exact Hjoined | exact Hraw].
Defined.

End HelperFacts.

(* ------------------------------------------------------------------ *)
(** ** The boundary server *)

Module ServerFacts.

Import ClientFacts.

(** X15.  The status the server answers a failed core request with:
    500 for a [config] failure, 502 for a [network] failure, and for a
    [parse], [api] or [http] failure the status of the upstream answer,
    which these failures always carry, a 2xx status of an answer that
    could not be decoded included.  The error body repeats that status
    and keeps the type and the [retryable] flag.  A [validation] failure
    of the products helper is answered with 400. *)
Theorem server_status_of_failures (baseUrl : JsValue) (token : TokenSource)
  (fetchFn : Transport) (path : string) (options : RequestOptions)
  (log : list FetchCall) (r : ApiResult) (e : ApiError) :
  fst (client_request (createDirectusClient baseUrl token fetchFn)
         path options log) = Normal r ->
  error r = Some e ->
  let reply := Server.sendError (Some e) in
  (type e = "config" /\ Server.reply_status reply = 500%Z
   \/ type e = "network" /\ Server.reply_status reply = 502%Z
   \/ In (type e) ["parse"; "api"; "http"]
      /\ status e = Some (Server.reply_status reply))
  /\ status (Server.reply_error reply) = Some (Server.reply_status reply)
  /\ type (Server.reply_error reply) = type e
  /\ retryable (Server.reply_error reply) = retryable e
  /\ (forall message details,
         Server.mapErrorToStatus
           (error (createValidationError message details)) = 400%Z).
Proof.
  intros Hrun Herr reply. simpl in Hrun.
  pose proof (request_outcome (sanitizeBaseUrl baseUrl) token fetchFn path
                options log) as Hout.
  rewrite Hrun in Hout. unfold reply.
  inversion Hout; subst; simpl in Herr; inversion Herr; subst;
    (split; [| repeat split; reflexivity]).
  - left. split; reflexivity.
  - right. left. split; reflexivity.
  - right. right. split; [simpl; tauto | reflexivity].
  - right. right. split; [simpl; tauto | reflexivity].
  - right. right. split; [simpl; tauto | reflexivity].
Qed.

Lemma server_status_of_failures_witness :
  Server.reply_status
    (Server.sendError
       (Some (createApiError "parse" (JStr "Unable to parse API response.")
                (Some 200%Z) JUndefined
                (jsError "Unexpected token < in JSON at position 0") false)))
  = 200%Z.
Proof.
  destruct (server_status_of_failures testBaseUrl (TokenValue JNull)
              (always (Normal (brokenJsonResponse 200)))
              "/items/Products" noOptions []
              (createFailureResult
                 (createApiError "parse" (JStr "Unable to parse API response.")
                    (Some 200%Z) JUndefined
                    (jsError "Unexpected token < in JSON at position 0")
                    false))
              _ ltac:(vm_compute; reflexivity) eq_refl)
    as [[[Habs _] | [[Habs _] | [_ Hstatus]]] _];
    [discriminate | discriminate |].
  simpl in Hstatus. now inversion Hstatus.
Defined.

(** X16.  [parseCsv] returns a text or [undefined], never an array, so
    that the helper's [toCommaSeparated] has nothing left to join.  A
    [fields] parameter that is an empty array or an empty text, or that
    is neither a text nor an array, leaves the query without [fields]:
    on this path no empty parameter [fields=] is sent. *)
Theorem parseCsv_feeds_the_query (value : JsValue) :
  let options :=
    {| filter := JUndefined; fields := Server.parseCsv value;
       limit := JUndefined; page := JUndefined; search := JUndefined;
       sort := JUndefined; list_signal := JUndefined |} in
  (Server.parseCsv value = JUndefined
   \/ exists text, Server.parseCsv value = JStr text)
  /\ toCommaSeparated (Server.parseCsv value) = Server.parseCsv value
  /\ (isArray value = true -> Server.parseCsv value = toCommaSeparated value)
  /\ buildProductsQuery options
     = (if toBoolean (Server.parseCsv value)
        then [("fields", Server.parseCsv value)] else [])
  /\ (value = JArr [] \/ value = JStr "" -> buildProductsQuery options = []).
Proof.
  intros options. split; [| split; [| split; [| split]]].
  - destruct value; simpl; try (now left); right; eexists; reflexivity.
  - now destruct value.
  - now destruct value.
  - unfold buildProductsQuery, options. simpl.
    destruct (toBoolean (Server.parseCsv value)) eqn:Htruthy;
      [| reflexivity].
    assert (Hsame : toCommaSeparated (Server.parseCsv value)
                    = Server.parseCsv value) by now destruct value.
    now rewrite Hsame.
  - intros [-> | ->]; reflexivity.
Qed.

Lemma parseCsv_feeds_the_query_witness :
  buildProductsQuery
    {| filter := JUndefined; fields := Server.parseCsv (JArr []);
       limit := JUndefined; page := JUndefined; search := JUndefined;
       sort := JUndefined; list_signal := JUndefined |}
  = [].
Proof.
  apply (proj2 (proj2 (proj2 (proj2 (parseCsv_feeds_the_query (JArr [])))))).
  now left.
Defined.



Section Assets.

Variable directusUrl : string.


End Assets.



End ServerFacts.
